(** * amphora: services/routes.js

    A shallow embedding of the routing module of amphora (services/routes.js)
    and the properties of its specification that concern
    path normalisation, error classification, the response envelope,
    extension dispatch, the list endpoints, page creation and the per-host
    ordering of sites.

    Conventions of the embedding:
    - a JavaScript string is a [string]; numbers that the code handles are
      integers and are modelled in [Z];
    - a JavaScript object is an association list of its own enumerable
      properties in enumeration order, with pairwise distinct keys;
    - a promise handed back by a collaborator is modelled by the way it
      settles ([Returns] = fulfilled, [Throws] = rejected);
    - the effects of a handler (response sent, log lines, collaborator
      calls, the Accept header it forces, rejections nobody handles) are
      threaded through a [World] by a small state-and-exception monad. *)

From Stdlib Require Import String Ascii List ZArith Lia Bool Permutation Sorted DecimalString.
Import ListNotations.
Local Open Scope string_scope.
Local Open Scope Z_scope.

(** ** JavaScript string primitives used by the module *)

Module JsString.

(** [s.split(sep)] for a one-character separator.  The result is never the
    empty array: [''.split('.')] is [['']]. *)
Fixpoint split (sep : ascii) (s : string) : list string :=
  match s with
  | EmptyString => [EmptyString]
  | String c s' =>
      if Ascii.eqb c sep then EmptyString :: split sep s'
      else match split sep s' with
           | [] => [String c EmptyString]
           | h :: t => String c h :: t
           end
  end.

(** [arr.shift()] read for its value; the array is a temporary in every use
    the module makes of it.  [None] is JavaScript's [undefined]. *)
Definition shift {A : Type} (arr : list A) : option A := hd_error arr.

(** [s.indexOf(needle)]: position of the first occurrence, or -1. *)
Fixpoint indexOf_from (needle s : string) (i : Z) : Z :=
  if prefix needle s then i
  else match s with
       | EmptyString => -1
       | String _ s' => indexOf_from needle s' (i + 1)
       end.

Definition indexOf (s needle : string) : Z := indexOf_from needle s 0.

(** [s.toLowerCase()] on the ASCII range. *)
Definition lower_ascii (c : ascii) : ascii :=
  let n := nat_of_ascii c in
  if ((65 <=? n)%nat && (n <=? 90)%nat)%bool then ascii_of_nat (n + 32) else c.

Fixpoint toLowerCase (s : string) : string :=
  match s with
  | EmptyString => EmptyString
  | String c s' => String (lower_ascii c) (toLowerCase s')
  end.

(** Occurrence of a character, and the part of a string before the first
    occurrence of a character. *)
Fixpoint has_char (c : ascii) (s : string) : bool :=
  match s with
  | EmptyString => false
  | String d s' => (Ascii.eqb d c || has_char c s')%bool
  end.

Fixpoint before (sep : ascii) (s : string) : string :=
  match s with
  | EmptyString => EmptyString
  | String c s' => if Ascii.eqb c sep then EmptyString else String c (before sep s')
  end.

(** Substring occurrence, as the specification words it. *)
Definition contains (s needle : string) : Prop :=
  exists pre post, s = pre ++ needle ++ post.

End JsString.

Import JsString.

(** ** Path normalisation (routes.js, lines 33-53) *)

(** [path.split('.').shift()].  [split] never returns the empty array
    ([split_not_nil]), so the [undefined] of [shift] cannot arise and the
    function always returns a string. *)
Definition removeExtension (path : string) : string :=
  match shift (split "." path) with
  | Some s => s
  | None => path
  end.

(** [path.split('?').shift()]. *)
Definition removeQueryString (path : string) : string :=
  match shift (split "?" path) with
  | Some s => s
  | None => path
  end.

Definition normalizePath (path : string) : string :=
  removeExtension (removeQueryString path).

(** ** Values, failures and responses *)

#[warning="-register-all"]
Inductive json : Type :=
| JUndefined
| JNull
| JBool (b : bool)
| JNum (n : Z)
| JStr (s : string)
| JArr (elems : list json)
| JObj (props : list (string * json)).

(** A value that a handler throws or a promise is rejected with: an object
    with the fields the module reads.  [is_Error] is [err instanceof Error];
    an absent field reads as [undefined]. *)
Record Failure : Type := mkFailure {
  is_Error : bool;
  err_name : option string;
  err_message : option string
}.

Definition TypeError (msg : string) : Failure :=
  mkFailure true (Some "TypeError") (Some msg).

Definition Error (msg : string) : Failure :=
  mkFailure true (Some "Error") (Some msg).

(** Result of running a piece of code, and the way a promise settles. *)
Inductive Outcome (A : Type) : Type :=
| Returns (a : A)
| Throws (e : Failure).
Arguments Returns {A} a.
Arguments Throws {A} e.

Inductive Promise (A : Type) : Type :=
| Fulfilled (a : A)
| Rejected (e : Failure).
Arguments Fulfilled {A} a.
Arguments Rejected {A} e.

Inductive Body : Type :=
| SendJSON (j : json)          (* res.json(x), res.send(object) *)
| SendText (s : string)        (* res.send(string) *)
| StatusText                   (* res.sendStatus(code) *)
| Piped (data : string).       (* stream.pipe(res) *)

Record Response : Type := mkResponse { status : Z; body : Body }.

Inductive Level : Type := Info | Warn | Err.

Record LogEntry : Type := mkLog {
  level : Level;
  text : string;
  about : option Failure
}.

(** One staged operation of a batch write. *)
Record Op : Type := mkOp { op_type : string; op_key : string; op_value : json }.

Inductive Call : Type :=
| CallGetComponentData (key : string)
| CallRenderComponent (key : string) (options : list (string * json))
| CallList (prefix : string)
| CallBatch (ops : list Op).

(** What [res.format] negotiates from the Accept header. *)
Inductive Format : Type := FmtJson | FmtHtml | FmtDefault.

(** The result shapes of [db.list]. *)
Inductive ListResult : Type :=
| ListPromise (p : Promise json)
| ListStream (errors : list Failure) (data : string)
| ListOther (typeof : string).

(** The value bound to a handler's [res] parameter: the response object of
    the request, [undefined], or some object that is not a response. *)
Inductive ResArg : Type := ResObject | ResUndefined | ResNotAResponse.

(** ** The world of one request, and the handler monad *)

Record World : Type := mkWorld {
  accept : option string;          (* req.headers.accept *)
  response : option Response;      (* what the caller has been sent *)
  log : list LogEntry;
  calls : list Call;               (* collaborator invocations, in order *)
  unhandled : list Failure         (* rejections no handler took *)
}.

Definition init_world (accept_header : option string) : World :=
  mkWorld accept_header None [] [] [].

Definition M (A : Type) : Type := World -> Outcome A * World.

Definition ret {A : Type} (a : A) : M A := fun w => (Returns a, w).

Definition throw {A : Type} (e : Failure) : M A := fun w => (Throws e, w).

Definition bind {A B : Type} (c : M A) (k : A -> M B) : M B :=
  fun w => match c w with
           | (Returns a, w') => k a w'
           | (Throws e, w') => (Throws e, w')
           end.

Notation "x <- c ;; k" := (bind c (fun x => k))
  (at level 61, c at next level, right associativity).
Notation "c ;;; k" := (bind c (fun _ => k))
  (at level 61, right associativity).

Definition lift {A : Type} (o : Outcome A) : M A := fun w => (o, w).

Definition get_accept : M (option string) := fun w => (Returns (accept w), w).

Definition set_accept (a : string) : M unit := fun w =>
  (Returns tt, mkWorld (Some a) (response w) (log w) (calls w) (unhandled w)).

Definition send (r : Response) : M unit := fun w =>
  (Returns tt, mkWorld (accept w) (Some r) (log w) (calls w) (unhandled w)).

Definition write_log (l : Level) (t : string) (e : option Failure) : M unit := fun w =>
  (Returns tt, mkWorld (accept w) (response w) (log w ++ [mkLog l t e]) (calls w) (unhandled w)).

Definition record_call (c : Call) : M unit := fun w =>
  (Returns tt, mkWorld (accept w) (response w) (log w) (calls w ++ [c]) (unhandled w)).

Definition record_unhandled (e : Failure) : M unit := fun w =>
  (Returns tt, mkWorld (accept w) (response w) (log w) (calls w) (unhandled w ++ [e])).

(** Looking up a method on [res] before calling it. *)
Definition method (res : ResArg) (name : string) : M unit :=
  match res with
  | ResObject => ret tt
  | ResUndefined => throw (TypeError ("Cannot read property '" ++ name ++ "' of undefined"))
  | ResNotAResponse => throw (TypeError "undefined is not a function")
  end.

(** [bluebird.try(fn).then(onFulfilled).catch(onRejected)] as a statement:
    a throw of [fn] or a rejection of the promise it returns goes to
    [onRejected], and so does a throw of [onFulfilled]; a throw of
    [onRejected] rejects the chain, which nobody observes. *)
Definition caught (onRejected : Failure -> M unit) (e : Failure) : M unit :=
  fun w => match onRejected e w with
           | (Returns _, w') => (Returns tt, w')
           | (Throws e', w') => record_unhandled e' w'
           end.

Definition try_then_catch {A : Type} (fn : M (Promise A))
    (onFulfilled : A -> M unit) (onRejected : Failure -> M unit) : M unit :=
  fun w => match fn w with
           | (Returns (Fulfilled a), w1) =>
               match onFulfilled a w1 with
               | (Returns _, w2) => (Returns tt, w2)
               | (Throws e, w2) => caught onRejected e w2
               end
           | (Returns (Rejected e), w1) => caught onRejected e w1
           | (Throws e, w1) => caught onRejected e w1
           end.

(** ** Error classification (routes.js, lines 184-194) *)

Inductive Classification : Type := NotFound | ServerError.

Definition name_is (err : Failure) (n : string) : bool :=
  match err_name err with
  | Some s => String.eqb s n
  | None => false
  end.

(** The condition of the [if] in [handleError], evaluated left to right
    with the short circuit of [||]: [err.message.indexOf] is reached only
    when the name test fails, and calling it on an absent message throws. *)
Definition classify (err : Failure) : Outcome Classification :=
  if name_is err "NotFoundError" then Returns NotFound
  else match err_message err with
       | None => Throws (TypeError "Cannot read property 'indexOf' of undefined")
       | Some m =>
           if negb (indexOf m "ENOENT" =? -1) then Returns NotFound
           else if negb (indexOf m "not found" =? -1) then Returns NotFound
           else Returns ServerError
       end.

(** The condition under which the specification calls a failure Not-Found;
    its kind "NotFound" is the name [NotFoundError] in the source. *)
Definition not_found_condition (err : Failure) : Prop :=
  err_name err = Some "NotFoundError" \/
  exists m, err_message err = Some m /\ (contains m "ENOENT" \/ contains m "not found").

(** ** Requests and collaborators *)

Record Request : Type := mkRequest {
  url : string;                     (* req.url *)
  ext : string;                     (* req.params.ext *)
  query : list (string * json);     (* req.query *)
  req_body : json                   (* req.body *)
}.

(** The modules the router calls into.  Each asynchronous operation is given
    by the way its promise settles; [flake_next n] is the identifier that the
    n-th call of [flake.next().toString('base64')] yields on a fresh
    generator; [negotiate] is the choice [res.format] makes from the Accept
    header. *)
Record Collaborators : Type := mkCollaborators {
  negotiate : option string -> Format;
  getComponentName : json -> string;
  getComponentData : string -> Promise json;
  composer_renderComponent : string -> list (string * json) -> Promise string;
  db_list : string -> ListResult;
  db_batch : list Op -> Promise unit;
  flake_next : nat -> string
}.

(** allowable query string variables *)
Definition queryStringOptions : list string := ["ignore-data"].

(** [_.pick(object, keys)]: the properties of [object] whose key is listed. *)
Definition pick (object : list (string * json)) (keys : list string) : list (string * json) :=
  filter (fun kv => existsb (String.eqb (fst kv)) keys) object.

Section Handlers.

Variable env : Collaborators.

(** [res.status(code).format({json, html, default})] *)
Definition status_format (res : ResArg) (code : Z) (json_body : json) (html_body : string) : M unit :=
  method res "status" ;;;
  a <- get_accept ;;
  match negotiate env a with
  | FmtJson => send (mkResponse code (SendJSON json_body))
  | FmtHtml => send (mkResponse code (SendText html_body))
  | FmtDefault => send (mkResponse code StatusText)
  end.

Definition notImplemented (req : Request) (res : ResArg) : M unit :=
  write_log Warn "Not Implemented" None ;;;
  method res "sendStatus" ;;;
  send (mkResponse 501 StatusText).

(** [notFound(err, res)] as [handleError] calls it, with both arguments.
    An [err] that is not an [Error] is taken for the response object. *)
Definition notFound (err : Failure) (res : ResArg) : M unit :=
  res' <- (if is_Error err
           then write_log Info "Not found: " (Some err) ;;; ret res
           else ret ResNotAResponse) ;;
  status_format res' 404
    (JObj [("message", JStr "Not Found"); ("code", JNum 404)])
    "404 Not Found".

Definition message_json (err : Failure) : json :=
  match err_message err with
  | Some m => JStr m
  | None => JUndefined
  end.

Definition serverError (err : Failure) (res : ResArg) : M unit :=
  write_log Err "" (Some err) ;;;
  status_format res 500
    (JObj [("message", message_json err); ("code", JNum 500)])
    "500 Server Error".

Definition handleError (res : ResArg) (err : Failure) : M unit :=
  c <- lift (classify err) ;;
  match c with
  | NotFound => notFound err res
  | ServerError => serverError err res
  end.

Definition expectJSON (fn : M (Promise json)) (res : ResArg) : M unit :=
  try_then_catch fn
    (fun result => method res "json" ;;; send (mkResponse 200 (SendJSON result)))
    (handleError res).

Definition expectHTML (fn : M (Promise string)) (res : ResArg) : M unit :=
  try_then_catch fn
    (fun result => method res "send" ;;; send (mkResponse 200 (SendText result)))
    (handleError res).

Definition getRouteFromComponent (req : Request) (res : ResArg) : M unit :=
  expectJSON
    (let key := normalizePath (url req) in
     record_call (CallGetComponentData key) ;;;
     ret (getComponentData env key))
    res.

(** [expectJSON(_.constant(list))]: the call passes no second argument, so
    the [res] of [expectJSON] is [undefined]. *)
Definition listAllWithPrefix (req : Request) (res : ResArg) : M unit :=
  let path := normalizePath (url req) in
  record_call (CallList path) ;;;
  match db_list env path with
  | ListPromise list => expectJSON (ret list) ResUndefined
  | ListStream errors data =>
      fold_right (fun e k => write_log Err "listAllWithPrefix::error" (Some e) ;;; k)
                 (ret tt) errors ;;;
      send (mkResponse 200 (Piped data))
  | ListOther typeof =>
      throw (Error ("listAllWithPrefix cannot handle type " ++ typeof))
  end.

Definition renderComponent (req : Request) (res : ResArg) : M unit :=
  expectHTML
    (let key := removeExtension (removeQueryString (url req)) in
     let options := pick (query req) queryStringOptions in
     record_call (CallRenderComponent key options) ;;;
     ret (composer_renderComponent env key options))
    res.

(** The [switch] on [req.params.ext.toLowerCase()]; the case [json] falls
    through to [default]. *)
Definition routeByExtension (req : Request) (res : ResArg) : M unit :=
  write_log Info "routeByExtension" None ;;;
  let e := toLowerCase (ext req) in
  if String.eqb e "html" then
    set_accept "text/html" ;;; renderComponent req res
  else if String.eqb e "yaml" then
    set_accept "text/yaml" ;;; notImplemented req res
  else
    set_accept "application/json" ;;; getRouteFromComponent req res.

End Handlers.

(** ** Page creation (routes.js, lines 359-410) *)

Module JsObject.

Definition truthy (v : json) : bool :=
  match v with
  | JUndefined | JNull => false
  | JBool b => b
  | JNum n => negb (n =? 0)
  | JStr s => negb (String.eqb s "")
  | JArr _ | JObj _ => true
  end.

Definition index_key (i : nat) : string :=
  NilEmpty.string_of_uint (Nat.to_uint i).

(** Own enumerable properties.  [bodyParser.json()] in its default strict
    mode delivers objects and arrays only; a primitive has none here. *)
Definition own_props (v : json) : list (string * json) :=
  match v with
  | JObj props => props
  | JArr elems => combine (map index_key (seq 0 (List.length elems))) elems
  | _ => []
  end.

Fixpoint lookup (k : string) (props : list (string * json)) : option json :=
  match props with
  | [] => None
  | (k', v) :: rest => if String.eqb k' k then Some v else lookup k rest
  end.

(** [object[k]] read *)
Definition get (props : list (string * json)) (k : string) : json :=
  match lookup k props with
  | Some v => v
  | None => JUndefined
  end.

(** [object[k] = v] *)
Fixpoint set (props : list (string * json)) (k : string) (v : json) : list (string * json) :=
  match props with
  | [] => [(k, v)]
  | (k', v') :: rest =>
      if String.eqb k' k then (k, v) :: rest else (k', v') :: set rest k v
  end.

(** [_.omit(object, k)] *)
Definition omit (props : list (string * json)) (k : string) : list (string * json) :=
  filter (fun kv => negb (String.eqb (fst kv) k)) props.

End JsObject.

Import JsObject.

(** The order in which pending promises settle is not fixed by the program.
    A schedule is a list of choices: each choice names the pending promise
    that settles next (a choice beyond the last pending one names the last).
    Every list of choices is a schedule, and when the choices run out the
    remaining promises settle in the order they were created. *)
Fixpoint choose {A : Type} (n : nat) (x : A) (l : list A) : A * list A :=
  match n, l with
  | S n', y :: l' => let (z, r) := choose n' y l' in (z, x :: r)
  | _, _ => (x, l)
  end.

Fixpoint settle_order {A : Type} (schedule : list nat) (pending : list A) {struct schedule} : list A :=
  match pending with
  | [] => []
  | x :: l =>
      match schedule with
      | [] => pending
      | n :: schedule' => let (z, r) := choose n x l in z :: settle_order schedule' r
      end
  end.

(** One slot of the request body: its key, the component it names and the
    promise of that component's data. *)
Record Slot : Type := mkSlot {
  slot_key : string;
  slot_component : string;
  slot_data : Promise json
}.

(** The mutable state shared by the callbacks of [createPage]: the [ops]
    array, the number of identifiers the generator has handed out, the slots
    resolved so far and the first rejection that [bluebird.props] saw. *)
Record Draft : Type := mkDraft {
  ops : list Op;
  ids_used : nat;
  resolved : list (string * json);
  rejection : option Failure
}.

Section PageCreation.

Variable env : Collaborators.

Definition getUniqueId (n : nat) : string := flake_next env n.

(** One iteration of the [_.reduce]: the request for the component's data. *)
Definition slot_of (kv : string * json) : Slot :=
  let componentName := getComponentName env (snd kv) in
  mkSlot (fst kv) componentName (getComponentData env ("/components/" ++ componentName)).

(** A promise of the reduce settles: the [then] callback of a fulfilled one
    stages its put; a rejected one rejects the [bluebird.props] join unless
    an earlier rejection already has. *)
Definition settle (d : Draft) (s : Slot) : Draft :=
  match slot_data s with
  | Fulfilled componentData =>
      let componentInstance :=
        "/components/" ++ slot_component s ++ "/instances/" ++ getUniqueId (ids_used d) in
      mkDraft (ops d ++ [mkOp "put" componentInstance componentData])
              (S (ids_used d))
              (resolved d ++ [(slot_key s, JStr componentInstance)])
              (rejection d)
  | Rejected e =>
      mkDraft (ops d) (ids_used d) (resolved d)
              (match rejection d with
               | None => Some e
               | Some first => Some first
               end)
  end.

Definition layoutReference_of (body : json) : json :=
  if truthy body then get (own_props body) "layout" else body.

Definition pageData_of (body : json) : list (string * json) :=
  if truthy body then omit (own_props body) "layout" else [].

(** The object [bluebird.props] resolves to: the keys of the reduce's object
    with each promise replaced by its value. *)
Definition joined (layoutReference : json) (slots : list Slot) (d : Draft) : list (string * json) :=
  ("layout", layoutReference) :: map (fun s => (slot_key s, get (resolved d) (slot_key s))) slots.

(** [createPage(req, res)], for a given schedule of the pending promises.
    The batch is recorded as [db.batch] receives it; [value._ref] is assigned
    only after the commit, on the object that is then sent. *)
Definition createPage (schedule : list nat) (req : Request) (res : ResArg) : M unit :=
  let body := req_body req in
  let layoutReference := layoutReference_of body in
  let pageData := pageData_of body in
  let pageReference := "/pages/" ++ getUniqueId 0 in
  let slots := map slot_of pageData in
  fold_right (fun s k => record_call (CallGetComponentData ("/components/" ++ slot_component s)) ;;; k)
             (ret tt) slots ;;;
  let d := fold_left settle (settle_order schedule slots) (mkDraft [] 1 [] None) in
  try_then_catch
    (match rejection d with
     | Some err => ret (Rejected err)
     | None =>
         let value := joined layoutReference slots d in
         let ops' := (ops d ++ [mkOp "put" pageReference (JObj value)])%list in
         record_call (CallBatch ops') ;;;
         ret (match db_batch env ops' with
              | Fulfilled _ => Fulfilled (JObj (set value "_ref" (JStr pageReference)))
              | Rejected err => Rejected err
              end)
     end)
    (fun result => method res "send" ;;; send (mkResponse 200 (SendJSON result)))
    (fun err => write_log Err "Failed to create new page" (Some err)).

End PageCreation.

(** ** Sites of a host (routes.js, lines 443-473) *)

Record Site : Type := mkSite { slug : string; host : string; path : string }.

(** [arr.sort(compare)] as an insertion sort: [compare a b <= 0] keeps [a]
    before [b], so elements that compare equal keep their order.  ECMAScript
    requires the sort to be stable since ES2019, and the insertion sort that
    V8 used before for arrays of up to ten elements is stable as well; the
    stable sorted arrangement of an array under a comparator given by a key
    is unique. *)
Fixpoint insert {A : Type} (compare : A -> A -> Z) (x : A) (l : list A) : list A :=
  match l with
  | [] => [x]
  | y :: l' => if compare x y <=? 0 then x :: y :: l' else y :: insert compare x l'
  end.

Definition sort {A : Type} (compare : A -> A -> Z) (arr : list A) : list A :=
  fold_right (insert compare) [] arr.

Definition segments (s : Site) : Z := Z.of_nat (List.length (split "/" (path s))).

(** sort by the depth of the path *)
Definition by_depth (a b : Site) : Z := segments a - segments b.

Definition sitesOnThisHost (sitesMap : list Site) (h : string) : list Site :=
  sort by_depth (filter (fun s => String.eqb (host s) h) sitesMap).

(** The comparator that orders by a numeric key, as [by_depth] does with
    [segments], and the order it sorts into. *)
Definition by_key {A : Type} (key : A -> Z) (a b : A) : Z := key a - key b.

Definition key_le {A : Type} (key : A -> Z) (a b : A) : Prop := key a <= key b.

(** [a] occurs in [l] at a position before an occurrence of [b]. *)
Definition before_in {A : Type} (a b : A) (l : list A) : Prop :=
  exists l1 l2 l3, l = (l1 ++ a :: l2 ++ b :: l3)%list.

(** [p] is a proper prefix of [q]. *)
Definition proper_prefix (p q : string) : Prop :=
  exists rest, rest <> "" /\ q = p ++ rest.

(** A concrete set of collaborators, for running the handlers on examples:
    the data of a component and the fate of a batch write are parameters. *)
Definition example_negotiate (a : option string) : Format :=
  match a with
  | Some s => if String.eqb s "application/json" then FmtJson
              else if String.eqb s "text/html" then FmtHtml
              else FmtDefault
  | None => FmtDefault
  end.

Definition example_name (v : json) : string :=
  match v with
  | JStr s => s
  | _ => "unknown"
  end.

Definition example_env (data : string -> Promise json) (listing : ListResult)
    (batch : list Op -> Promise unit) : Collaborators :=
  mkCollaborators example_negotiate example_name data
    (fun _ _ => Fulfilled "<article></article>") (fun _ => listing) batch index_key.

(** Every component exists, except the one called "missing". *)
Definition example_data (key : string) : Promise json :=
  if String.eqb key "/components/missing"
  then Rejected (Error "storage unavailable")
  else Fulfilled (JObj [("component", JStr key)]).

(** The same request with another value of [req.params.ext]. *)
Definition with_ext (req : Request) (e : string) : Request :=
  mkRequest (url req) e (query req) (req_body req).

(** The batches handed to [db.batch] in a run. *)
Definition batches (w : World) : list (list Op) :=
  flat_map (fun c => match c with CallBatch o => [o] | _ => [] end) (calls w).


(** The requests for component data that the reduce of [createPage] issues. *)
Definition requested (slots : list Slot) : list Call :=
  map (fun s => CallGetComponentData ("/components/" ++ slot_component s)) slots.

(** A page-creation request with the slots head and main, and one whose
    second slot names a component that does not exist. *)
Definition example_page (second : string) : Request :=
  mkRequest "/pages" "" []
    (JObj [("layout", JStr "/components/layout/instances/main");
           ("head", JStr "title");
           ("main", JStr second)]).

(** Unfolds the handler monad down to the world. *)
Ltac run_handler :=
  unfold handleError, notFound, serverError, status_format, method, caught,
    try_then_catch, bind, lift, ret, throw, send, write_log, record_call,
    record_unhandled, get_accept, set_accept;
  cbn.

(** ** The remaining JSON routes (routes.js, lines 247-312) *)

(** The storage and reference operations that the other routes call, and
    the two JSON builtins; [JSON.parse] throws on a text that is not JSON. *)
Record Storage : Type := mkStorage {
  db_get : string -> Promise string;
  db_put : string -> string -> Promise json;
  JSON_parse : string -> Outcome json;
  JSON_stringify : json -> string;
  references_putComponentData : string -> json -> Promise json;
  references_getSchema : string -> Promise json
}.

(** [promise.then(f)] for a synchronous [f]: a throw of [f] rejects. *)
Definition then_sync {A B : Type} (p : Promise A) (f : A -> Outcome B) : Promise B :=
  match p with
  | Fulfilled a =>
      match f a with
      | Returns b => Fulfilled b
      | Throws e => Rejected e
      end
  | Rejected e => Rejected e
  end.

Section StorageRoutes.

Variable env : Collaborators.
Variable store : Storage.

Definition putRouteFromComponent (req : Request) (res : ResArg) : M unit :=
  expectJSON env
    (ret (references_putComponentData store (normalizePath (url req)) (req_body req)))
    res.

(** This route gets straight from the db. *)
Definition getRouteFromDB (req : Request) (res : ResArg) : M unit :=
  expectJSON env
    (ret (then_sync (db_get store (normalizePath (url req))) (JSON_parse store)))
    res.

(** This route puts straight to the db. *)
Definition putRouteFromDB (req : Request) (res : ResArg) : M unit :=
  expectJSON env
    (ret (db_put store (normalizePath (url req)) (JSON_stringify store (req_body req))))
    res.

Definition getSchema (req : Request) (res : ResArg) : M unit :=
  expectJSON env
    (ret (references_getSchema store (removeExtension (removeQueryString (url req)))))
    res.

End StorageRoutes.

(** The bodies that [notFound] and [serverError] send. *)
Definition notFound_json : json := JObj [("message", JStr "Not Found"); ("code", JNum 404)].

Definition serverError_json (err : Failure) : json :=
  JObj [("message", message_json err); ("code", JNum 500)].

(** The body that [res.format] picks for a negotiated format. *)
Definition negotiated_body (f : Format) (j : json) (html : string) : Body :=
  match f with
  | FmtJson => SendJSON j
  | FmtHtml => SendText html
  | FmtDefault => StatusText
  end.

(** The failure a computation ends in, if any: thrown, or the rejection of
    the promise it returned. *)
Definition fails_with {A : Type} (o : Outcome (Promise A)) (e : Failure) : Prop :=
  o = Throws e \/ o = Returns (Rejected e).

(** What the envelope answers for the way a computation ended. *)
Definition answer_for {A : Type} (body : A -> Body) (o : Outcome (Promise A))
    (resp : Response) : Prop :=
  match o with
  | Returns (Fulfilled v) => resp = mkResponse 200 (body v)
  | _ => status resp = 404 \/ status resp = 500
  end.

(** A store for examples: every key holds the given text, of which only
    "{}" parses; puts and schema requests succeed. *)
Definition example_store (stored : string) : Storage :=
  mkStorage (fun _ => Fulfilled stored)
    (fun _ _ => Fulfilled JNull)
    (fun t => if String.eqb t "{}" then Returns (JObj [])
              else Throws (mkFailure true (Some "SyntaxError") (Some "Unexpected token")))
    (fun _ => "{}")
    (fun _ _ => Fulfilled JNull)
    (fun _ => Fulfilled JNull).



(** Number of occurrences of a character in a string. *)
Definition occurrences (c : ascii) (s : string) : nat :=
  List.length (filter (Ascii.eqb c) (list_ascii_of_string s)).

(** ** Request context (routes.js, lines 75-110) *)

(** What the context middleware reads of a request. *)
Record Incoming : Type := mkIncoming {
  in_method : string;                    (* req.method *)
  in_protocol : string;                  (* req.protocol *)
  in_host : option string;               (* req.get('host') *)
  in_originalUrl : string;               (* req.originalUrl *)
  in_query : list (string * json);       (* req.query *)
  in_params : list (string * json)       (* req.params *)
}.

(** [res.locals] *)
Definition Locals : Type := list (string * json).

(** A header in a string concatenation; a missing one reads "undefined". *)
Definition header_text (h : option string) : string :=
  match h with
  | Some s => s
  | None => "undefined"
  end.

(** add site.slug to locals for each site; the middleware then calls
    [next()]. *)
Definition addSiteLocals (slug : string) (req : Incoming) (locals : Locals) : Locals :=
  set (set locals "url"
         (JStr (in_protocol req ++ "://" ++ header_text (in_host req) ++ in_originalUrl req)))
      "site" (JStr slug).

(** add edit mode for each site; the middleware then calls [next()]. *)
Definition addEditMode (req : Incoming) (locals : Locals) : Locals :=
  set locals "isEditMode" (JBool (truthy (get (in_query req) "edit"))).

(** The handler that [setLayout(route, layout)] registers: [res.locals]
    becomes the very object [req.params], which then gets the layout; the
    result is the pair of [req.params] and [res.locals] afterwards. *)
Definition setLayout_handler (layout : string) (req : Incoming) (locals : Locals)
    : list (string * json) * Locals :=
  let shared := set (in_params req) "layout" (JStr layout) in
  (shared, shared).

(** ** The routes and the router of a host (routes.js, lines 416-473) *)

Inductive Method : Type := GET | PUT | POST.

Inductive HandlerName : Type :=
| GetRouteFromSandbox
| NotImplemented
| RouteByExtension
| GetRouteFromComponent
| PutRouteFromComponent
| ListAllWithPrefix
| GetSchema
| GetRouteFromDB
| PutRouteFromDB
| CreatePage.

(** What is registered on a router, in order of registration. *)
Inductive Layer : Type :=
| UseBodyParser                                        (* router.use(bodyParser.json()) *)
| RouteTo (m : Method) (pattern : string) (h : HandlerName)
| UseSiteLocals (mount : string) (slug : string)       (* use(site.path, addSiteLocals(site.slug)) *)
| UseEditMode (mount : string)                         (* use(site.path, addEditMode()) *)
| UseSiteRouter (mount : string) (slug : string).      (* use(site.path, require(siteController)(...)) *)

Definition addComponentRoutes : list Layer :=
  [ UseBodyParser;
    RouteTo GET "/sandbox/:name" GetRouteFromSandbox;
    RouteTo GET "/components" NotImplemented;
    RouteTo GET "/components/:name.:ext" RouteByExtension;
    RouteTo GET "/components/:name" GetRouteFromComponent;
    RouteTo PUT "/components/:name" PutRouteFromComponent;
    RouteTo GET "/components/:name/instances" ListAllWithPrefix;
    RouteTo GET "/components/:name/instances/:id.:ext" RouteByExtension;
    RouteTo GET "/components/:name/instances/:id" GetRouteFromComponent;
    RouteTo PUT "/components/:name/instances/:id" PutRouteFromComponent;
    RouteTo GET "/components/:name/schema" GetSchema;
    RouteTo GET "/pages" ListAllWithPrefix;
    RouteTo GET "/pages/:name" GetRouteFromDB;
    RouteTo PUT "/pages/:name" PutRouteFromDB;
    RouteTo POST "/pages" CreatePage;
    RouteTo GET "/uris" ListAllWithPrefix;
    RouteTo GET "/uris/:name" GetRouteFromDB;
    RouteTo PUT "/uris/:name" PutRouteFromDB ].

(** What the loop over the sites of a host registers for one site. *)
Definition siteLayers (site : Site) : list Layer :=
  ([UseSiteLocals (path site) (slug site); UseEditMode (path site)] ++
   addComponentRoutes ++
   [UseSiteRouter (path site) (slug site)])%list.

Definition hostMiddleware (sitesMap : list Site) (h : string) : list Layer :=
  flat_map siteLayers (sitesOnThisHost sitesMap h).

(** How a request leaves a router: a route handler took it, the router of a
    site answered it, the body did not parse, or no layer took it; with the
    [res.locals] at that moment. *)
Inductive Dispatched : Type :=
| ByHandler (h : HandlerName) (locals : Locals)
| BySite (slug : string) (locals : Locals)
| BadBody (locals : Locals)
| Unanswered (locals : Locals).

Section Dispatch.

(** Express decides which layers take a request; the router of a site is
    the site's own code.  [mounted path req]: a layer used at [path] takes
    [req].  [route_matches m pattern req]: the route takes [req].
    [body_parses req]: [bodyParser.json()] accepts the body.
    [site_router slug req locals]: [None] when the site's router answers,
    the locals it leaves when it passes the request on. *)
Variable mounted : string -> Incoming -> bool.
Variable route_matches : Method -> string -> Incoming -> bool.
Variable body_parses : Incoming -> bool.
Variable site_router : string -> Incoming -> Locals -> option Locals.

(** The layers are tried in the order of registration; the context
    middleware call [next()], the route handlers do not. *)
Fixpoint dispatch (layers : list Layer) (req : Incoming) (locals : Locals) : Dispatched :=
  match layers with
  | [] => Unanswered locals
  | UseBodyParser :: rest =>
      if body_parses req then dispatch rest req locals else BadBody locals
  | RouteTo m pattern h :: rest =>
      if route_matches m pattern req then ByHandler h locals else dispatch rest req locals
  | UseSiteLocals mount slug :: rest =>
      dispatch rest req (if mounted mount req then addSiteLocals slug req locals else locals)
  | UseEditMode mount :: rest =>
      dispatch rest req (if mounted mount req then addEditMode req locals else locals)
  | UseSiteRouter mount slug :: rest =>
      if mounted mount req then
        match site_router slug req locals with
        | None => BySite slug locals
        | Some locals' => dispatch rest req locals'
        end
      else dispatch rest req locals
  end.

(** The first of the component routes that takes a request. *)
Definition first_route (req : Incoming) : option HandlerName :=
  match find (fun l => match l with
                       | RouteTo m pattern _ => route_matches m pattern req
                       | _ => false
                       end) addComponentRoutes with
  | Some (RouteTo _ _ h) => Some h
  | _ => None
  end.

End Dispatch.

(** Stand-ins for the decisions of Express, for examples: a layer is
    mounted on the paths that start with its mount path, and a route takes
    the requests of its method whose url is its pattern, letter by letter. *)
Definition example_mounted (mount : string) (req : Incoming) : bool :=
  prefix mount (in_originalUrl req).

Definition method_name (m : Method) : string :=
  match m with
  | GET => "GET"
  | PUT => "PUT"
  | POST => "POST"
  end.

Definition example_route_matches (m : Method) (pattern : string) (req : Incoming) : bool :=
  (String.eqb (method_name m) (in_method req) && String.eqb pattern (in_originalUrl req))%bool.

(** Two sites of one host for examples, and site routers of which only
    that of "docs" answers. *)
Definition example_sites : list Site :=
  [mkSite "docs" "example.com" "/docs/"; mkSite "root" "example.com" "/"].

Definition example_site_router (slug : string) (req : Incoming) (locals : Locals)
    : option Locals :=
  if String.eqb slug "docs" then None else Some locals.

(** Letters that differ in case only, given by the alphabet itself: each
    capital with the small letter at the same place. *)
Definition capitals : string := "ABCDEFGHIJKLMNOPQRSTUVWXYZ".

Definition small_letters : string := "abcdefghijklmnopqrstuvwxyz".

Definition letter_pairs : list (ascii * ascii) :=
  combine (list_ascii_of_string capitals) (list_ascii_of_string small_letters).

Definition same_letter (a b : ascii) : bool :=
  (Ascii.eqb a b ||
   existsb (fun p => (Ascii.eqb (fst p) a && Ascii.eqb (snd p) b) ||
                     (Ascii.eqb (fst p) b && Ascii.eqb (snd p) a))
           letter_pairs)%bool.

(** Two strings that are equal up to the case of their letters. *)
Fixpoint equal_ignoring_case (s t : string) : bool :=
  match s, t with
  | EmptyString, EmptyString => true
  | String a s', String b t' => (same_letter a b && equal_ignoring_case s' t')%bool
  | _, _ => false
  end.

(** The properties of a query that are called ignore-data, in their order. *)
Definition ignore_data_of (q : list (string * json)) : list (string * json) :=
  filter (fun kv => String.eqb (fst kv) "ignore-data") q.

(** * Properties *)

(** ** String primitives *)

Lemma split_not_nil (sep : ascii) (s : string) : split sep s <> [].
Proof.
  destruct s as [|c s]; simpl; [discriminate|].
  destruct (Ascii.eqb c sep); [discriminate|].
  destruct (split sep s); discriminate.
Qed.

Lemma shift_split (sep : ascii) (s : string) :
  shift (split sep s) = Some (before sep s).
Proof.
  induction s as [|c s IH]; simpl; [reflexivity|].
  destruct (Ascii.eqb c sep); [reflexivity|].
  unfold shift in IH.
  destruct (split sep s) as [|h t]; simpl in *; [discriminate|].
  now injection IH as ->.
Qed.

Lemma length_split (sep : ascii) (s : string) :
  List.length (split sep s) = S (List.length (filter (Ascii.eqb sep) (list_ascii_of_string s))).
Proof.
  induction s as [|c s IH]; simpl; [reflexivity|].
  rewrite (Ascii.eqb_sym sep c).
  destruct (Ascii.eqb c sep); simpl.
  - now rewrite IH.
  - destruct (split sep s) as [|h t] eqn:E; simpl in *; [discriminate|exact IH].
Qed.

Lemma before_no_sep (sep : ascii) (s : string) : has_char sep (before sep s) = false.
Proof.
  induction s as [|c s IH]; simpl; [reflexivity|].
  destruct (Ascii.eqb c sep) eqn:E; simpl; [reflexivity|].
  now rewrite E, IH.
Qed.

Lemma before_absent (sep : ascii) (s : string) :
  has_char sep s = false -> before sep s = s.
Proof.
  induction s as [|c s IH]; simpl; [reflexivity|].
  destruct (Ascii.eqb c sep); simpl; [discriminate|].
  intros H. now rewrite IH.
Qed.

Lemma before_keeps_absent (c sep : ascii) (s : string) :
  has_char c s = false -> has_char c (before sep s) = false.
Proof.
  induction s as [|d s IH]; simpl; [reflexivity|].
  intros H. apply orb_false_iff in H as [H1 H2].
  destruct (Ascii.eqb d sep); simpl; [reflexivity|].
  now rewrite H1, IH.
Qed.

Lemma prefix_app (p s : string) :
  prefix p s = true <-> exists post, s = p ++ post.
Proof.
  revert s. induction p as [|a p IH]; intros s; simpl.
  - split; [intros _; now exists s|now destruct s].
  - destruct s as [|b s].
    + split; [discriminate|intros [post H]; discriminate].
    + simpl. destruct (ascii_dec a b) as [->|N].
      * rewrite IH. split; intros [post H]; exists post; [now rewrite H|now injection H].
      * split; [discriminate|intros [post H]; injection H; intros; congruence].
Qed.

Lemma indexOf_from_contains (needle s : string) (i : Z) :
  0 <= i -> (indexOf_from needle s i <> -1 <-> contains s needle).
Proof.
  revert i. induction s as [|c s IH]; intros i Hi.
  - simpl. destruct needle as [|a n]; simpl.
    + split; [intros _; now exists "", ""|lia].
    + split; [congruence|].
      intros [pre [post H]]. destruct pre; discriminate.
  - cbn [indexOf_from]. destruct (prefix needle (String c s)) eqn:P.
    + split; [intros _|lia].
      apply prefix_app in P as [post ->]. now exists "", post.
    + rewrite IH by lia. split.
      * intros [pre [post ->]]. now exists (String c pre), post.
      * intros [pre [post H]]. destruct pre as [|d pre].
        -- simpl in H. assert (prefix needle (String c s) = true) as Q
             by (apply prefix_app; now exists post).
           congruence.
        -- injection H as _ ->. now exists pre, post.
Qed.

Lemma indexOf_contains (s needle : string) :
  indexOf s needle <> -1 <-> contains s needle.
Proof. apply indexOf_from_contains; lia. Qed.

Lemma lower_ascii_idempotent (c : ascii) : lower_ascii (lower_ascii c) = lower_ascii c.
Proof.
  destruct c as [b0 b1 b2 b3 b4 b5 b6 b7].
  destruct b0, b1, b2, b3, b4, b5, b6, b7; reflexivity.
Qed.

Lemma toLowerCase_idempotent (s : string) : toLowerCase (toLowerCase s) = toLowerCase s.
Proof.
  induction s as [|c s IH]; simpl; [reflexivity|].
  now rewrite lower_ascii_idempotent, IH.
Qed.

(** ** Path normalisation *)

Lemma removeExtension_before (path : string) :
  removeExtension path = before "." path.
Proof. unfold removeExtension. now rewrite shift_split. Qed.

Lemma removeQueryString_before (path : string) :
  removeQueryString path = before "?" path.
Proof. unfold removeQueryString. now rewrite shift_split. Qed.

Lemma normalizePath_no_dot (p : string) : has_char "." (normalizePath p) = false.
Proof. unfold normalizePath. rewrite removeExtension_before. apply before_no_sep. Qed.

Lemma normalizePath_no_query (p : string) : has_char "?" (normalizePath p) = false.
Proof.
  unfold normalizePath. rewrite removeExtension_before, removeQueryString_before.
  apply before_keeps_absent, before_no_sep.
Qed.

(** C6: [normalizePath] removes the query string and then the extension, it
    is idempotent, and it maps "/components/foo.html?x=1" to
    "/components/foo". *)
Theorem normalizePath_idempotent :
  (forall p : string, normalizePath p = removeExtension (removeQueryString p)) /\
  (forall p : string, normalizePath (normalizePath p) = normalizePath p) /\
  normalizePath "/components/foo.html?x=1" = "/components/foo".
Proof.
  split; [reflexivity|]. split; [|reflexivity].
  intros p. unfold normalizePath at 1.
  rewrite removeExtension_before, removeQueryString_before.
  rewrite (before_absent "?") by apply normalizePath_no_query.
  apply before_absent, normalizePath_no_dot.
Qed.

(** C7: a path whose last segment has a dot before its extension loses
    everything from the FIRST dot on: the key derived from
    "/components/a.b.html" is "/components/a", not "/components/a.b", and a
    dot in an earlier segment cuts the path there. *)
Theorem normalizePath_cuts_at_first_dot :
  normalizePath "/components/a.b.html" = "/components/a" /\
  normalizePath "/components/a.b.html" <> "/components/a.b" /\
  normalizePath "/components/my.list/instances/1.json?edit=true" = "/components/my".
Proof. repeat split; try reflexivity. discriminate. Qed.


(** ** Error classification *)

Lemma name_is_spec (err : Failure) (n : string) :
  name_is err n = true <-> err_name err = Some n.
Proof.
  unfold name_is. destruct (err_name err) as [s|].
  - rewrite String.eqb_eq. split; congruence.
  - split; discriminate.
Qed.

Lemma found_contains (m needle : string) :
  negb (indexOf m needle =? -1) = true <-> contains m needle.
Proof.
  rewrite negb_true_iff, Z.eqb_neq. apply indexOf_contains.
Qed.

Lemma classify_NotFound (err : Failure) :
  classify err = Returns NotFound <-> not_found_condition err.
Proof.
  unfold classify, not_found_condition.
  destruct (name_is err "NotFoundError") eqn:N.
  - apply name_is_spec in N. tauto.
  - assert (err_name err <> Some "NotFoundError") as N'
      by (intros H; apply name_is_spec in H; congruence).
    destruct (err_message err) as [m|].
    + destruct (negb (indexOf m "ENOENT" =? -1)) eqn:E1.
      * apply found_contains in E1. split; [intros _|reflexivity].
        right. exists m. tauto.
      * destruct (negb (indexOf m "not found" =? -1)) eqn:E2.
        -- apply found_contains in E2. split; [intros _|reflexivity].
           right. exists m. tauto.
        -- split; [discriminate|].
           intros [H|[m' [H [C|C]]]]; [tauto| |]; injection H as <-;
             apply found_contains in C; congruence.
    + split; [discriminate|].
      intros [H|[m [H _]]]; [tauto|discriminate].
Qed.

Lemma classify_ServerError (err : Failure) :
  classify err = Returns ServerError <->
  ~ not_found_condition err /\ err_message err <> None.
Proof.
  split.
  - intros H. split.
    + intros C. apply classify_NotFound in C. congruence.
    + unfold classify in H. destruct (name_is err "NotFoundError"); [discriminate|].
      destruct (err_message err); [discriminate|discriminate].
  - intros [C M]. assert (classify err <> Returns NotFound) as N
      by (intros H; now apply classify_NotFound in H).
    unfold classify in *. destruct (name_is err "NotFoundError"); [congruence|].
    destruct (err_message err) as [m|]; [|congruence].
    destruct (negb (indexOf m "ENOENT" =? -1)); [congruence|].
    destruct (negb (indexOf m "not found" =? -1)); [congruence|reflexivity].
Qed.

Lemma handleError_dispatch (env : Collaborators) (res : ResArg) (err : Failure) (w : World) :
  handleError env res err w =
  match classify err with
  | Returns NotFound => notFound env err res w
  | Returns ServerError => serverError env err res w
  | Throws e => (Throws e, w)
  end.
Proof.
  unfold handleError, bind, lift. now destruct (classify err) as [[|]|e].
Qed.

(** C3 (as amended): a failure is classified Not-Found exactly when its name
    is NotFoundError or its message contains "ENOENT" or "not found" as a
    substring, with the case of the letters as written; it is classified
    Server Error exactly when none of these holds and it carries a message;
    and [handleError] renders along the path the classification selects. *)
Theorem handleError_classification (err : Failure) :
  (classify err = Returns NotFound <->
     err_name err = Some "NotFoundError" \/
     exists m, err_message err = Some m /\ (contains m "ENOENT" \/ contains m "not found")) /\
  (classify err = Returns ServerError <->
     ~ not_found_condition err /\ err_message err <> None) /\
  (forall env res w,
     handleError env res err w =
     match classify err with
     | Returns NotFound => notFound env err res w
     | Returns ServerError => serverError env err res w
     | Throws e => (Throws e, w)
     end).
Proof.
  split; [apply classify_NotFound|].
  split; [apply classify_ServerError|].
  intros. apply handleError_dispatch.
Qed.

Lemma handleError_classification_witness :
  classify (Error "ENOENT: no such file or directory") = Returns NotFound /\
  classify (Error "storage unavailable") = Returns ServerError.
Proof.
  split.
  - apply (proj1 (handleError_classification (Error "ENOENT: no such file or directory"))).
    right. exists "ENOENT: no such file or directory".
    split; [reflexivity|]. left. exists "", ": no such file or directory". reflexivity.
  - apply (proj1 (proj2 (handleError_classification (Error "storage unavailable")))).
    split; [|discriminate].
    intros C.
    apply (proj1 (handleError_classification (Error "storage unavailable"))) in C.
    discriminate C.
Defined.

(** C3, the claim as stated fails: a failure named "Error" that has no
    message meets none of the Not-Found conditions and still is not
    classified as a Server Error. *)
Lemma classification_not_exhaustive :
  let err := mkFailure true (Some "Error") None in
  ~ not_found_condition err /\
  classify err <> Returns ServerError /\
  classify err <> Returns NotFound.
Proof.
  cbv zeta. split; [|split; discriminate].
  intros [H|[m [H _]]]; discriminate.
Qed.

(** The match is sensitive to case: "Not Found" is not "not found". *)
Example classify_case_sensitive :
  classify (Error "key not found in database") = Returns NotFound /\
  classify (Error "Key Not Found") = Returns ServerError.
Proof. split; reflexivity. Qed.

(** C8 (as amended): for a failure that carries a message, or whose name is
    NotFoundError, classification does not throw, and [handleError] takes
    either the Not-Found or the Server Error rendering path. *)
Theorem classification_never_throws (err : Failure)
    (H : err_message err <> None \/ err_name err = Some "NotFoundError") :
  (classify err = Returns NotFound \/ classify err = Returns ServerError) /\
  forall env res w,
    handleError env res err w = notFound env err res w \/
    handleError env res err w = serverError env err res w.
Proof.
  assert (classify err = Returns NotFound \/ classify err = Returns ServerError) as C.
  { unfold classify. destruct H as [H|H].
    - destruct (name_is err "NotFoundError"); [now left|].
      destruct (err_message err) as [m|]; [|congruence].
      destruct (negb (indexOf m "ENOENT" =? -1)); [now left|].
      destruct (negb (indexOf m "not found" =? -1)); [now left|now right].
    - apply name_is_spec in H. rewrite H. now left. }
  split; [exact C|].
  intros env res w. rewrite handleError_dispatch.
  destruct C as [-> | ->]; [now left|now right].
Qed.

Lemma classification_never_throws_witness :
  let err := Error "storage unavailable" in
  (err_message err <> None \/ err_name err = Some "NotFoundError") /\
  (classify err = Returns NotFound \/ classify err = Returns ServerError).
Proof.
  cbv zeta.
  assert (err_message (Error "storage unavailable") <> None \/
          err_name (Error "storage unavailable") = Some "NotFoundError") as H
    by (left; discriminate).
  split; [exact H|].
  exact (proj1 (classification_never_throws (Error "storage unavailable") H)).
Defined.

(** C8, the claim as stated fails: classifying a failure that has neither a
    name nor a message throws a TypeError. *)
Lemma classification_throws_without_message :
  classify (mkFailure false None None) =
  Throws (TypeError "Cannot read property 'indexOf' of undefined").
Proof. reflexivity. Qed.

(** ** Extension dispatch *)

(** Handling a failure neither touches the Accept header nor calls a
    collaborator. *)
Lemma caught_handleError_frame (env : Collaborators) (res : ResArg) (err : Failure) (w : World) :
  accept (snd (caught (handleError env res) err w)) = accept w /\
  calls (snd (caught (handleError env res) err w)) = calls w.
Proof.
  run_handler.
  destruct (classify err) as [[|]|e]; cbn; [| |now split].
  - destruct (is_Error err), res; cbn; try (now split);
      destruct (negotiate env (accept w)); now split.
  - destruct res; cbn; try (now split);
      destruct (negotiate env (accept w)); now split.
Qed.

Lemma pick_whitelist (q : list (string * json)) (k : string) (v : json) :
  In (k, v) (pick q queryStringOptions) <-> k = "ignore-data" /\ In (k, v) q.
Proof.
  unfold pick, queryStringOptions. rewrite filter_In. cbn.
  rewrite orb_false_r, String.eqb_eq. tauto.
Qed.

Lemma pick_ignore_data (q : list (string * json)) :
  pick q queryStringOptions = ignore_data_of q.
Proof.
  unfold pick, queryStringOptions, ignore_data_of. apply filter_ext.
  intros kv. cbn. apply orb_false_r.
Qed.

(** C5: the dispatch on the extension.  For html the Accept header becomes
    text/html and the component is rendered with exactly the query options
    called ignore-data: each of them is passed on, and nothing else is; for
    yaml the header becomes text/yaml and the response is 501; for json it
    becomes application/json and the component's data is the JSON
    response. *)
Theorem routeByExtension_dispatch (env : Collaborators) (a : option string)
    (u : string) (q : list (string * json)) (b : json) :
  let run e := snd (routeByExtension env (mkRequest u e q b) ResObject (init_world a)) in
  let key := normalizePath u in
  let options := ignore_data_of q in
  (accept (run "html") = Some "text/html" /\
   calls (run "html") = [CallRenderComponent key options] /\
   (forall k v, In (k, v) options <-> k = "ignore-data" /\ In (k, v) q) /\
   (forall h, composer_renderComponent env key options = Fulfilled h ->
      response (run "html") = Some (mkResponse 200 (SendText h)))) /\
  (accept (run "yaml") = Some "text/yaml" /\
   calls (run "yaml") = [] /\
   response (run "yaml") = Some (mkResponse 501 StatusText)) /\
  (accept (run "json") = Some "application/json" /\
   calls (run "json") = [CallGetComponentData key] /\
   (forall d, getComponentData env key = Fulfilled d ->
      response (run "json") = Some (mkResponse 200 (SendJSON d)))).
Proof.
  cbv zeta. rewrite <- pick_ignore_data.
  assert (forall k v, In (k, v) (pick q queryStringOptions) <->
                      k = "ignore-data" /\ In (k, v) q) as W
    by (intros k v; apply pick_whitelist).
  split; [|split].
  - unfold routeByExtension, renderComponent, expectHTML, normalizePath.
    cbn [ext]. change (toLowerCase "html") with "html".
    cbn -[pick caught].
    unfold try_then_catch, bind, ret, set_accept, write_log, record_call, method, send.
    cbn -[pick caught].
    destruct (composer_renderComponent env _ _) as [h|e] eqn:R.
    + cbn -[pick caught]. split; [reflexivity|]. split; [reflexivity|]. split; [exact W|].
      intros h' E. now injection E as ->.
    + match goal with
      | |- context [caught ?f ?e ?w] =>
          destruct (caught_handleError_frame env ResObject e w) as [A C]
      end.
      rewrite A, C. cbn -[pick caught].
      split; [reflexivity|]. split; [reflexivity|]. split; [exact W|discriminate].
  - unfold routeByExtension, notImplemented.
    cbn [ext]. change (toLowerCase "yaml") with "yaml". cbn. now repeat split.
  - unfold routeByExtension, getRouteFromComponent, expectJSON.
    cbn [ext]. change (toLowerCase "json") with "json". cbn -[caught].
    unfold try_then_catch, bind, ret, set_accept, write_log, record_call, method, send. cbn -[caught].
    destruct (getComponentData env _) as [d|e] eqn:R.
    + cbn -[caught]. split; [reflexivity|]. split; [reflexivity|].
      intros d' E. now injection E as ->.
    + match goal with
      | |- context [caught ?f ?e ?w] =>
          destruct (caught_handleError_frame env ResObject e w) as [A C]
      end.
      rewrite A, C. cbn -[caught]. split; [reflexivity|]. split; [reflexivity|discriminate].
Qed.

Lemma routeByExtension_dispatch_witness :
  let env := example_env example_data (ListOther "undefined") (fun _ => Fulfilled tt) in
  let u := "/components/article.html?edit=true&ignore-data=true" in
  let q := [("edit", JStr "true"); ("ignore-data", JStr "true")] in
  let run e := snd (routeByExtension env (mkRequest u e q JUndefined) ResObject (init_world None)) in
  calls (run "html") =
    [CallRenderComponent "/components/article" [("ignore-data", JStr "true")]] /\
  response (run "html") = Some (mkResponse 200 (SendText "<article></article>")) /\
  response (run "json") =
    Some (mkResponse 200 (SendJSON (JObj [("component", JStr "/components/article")]))).
Proof.
  cbv zeta.
  destruct (routeByExtension_dispatch
              (example_env example_data (ListOther "undefined") (fun _ => Fulfilled tt))
              None "/components/article.html?edit=true&ignore-data=true"
              [("edit", JStr "true"); ("ignore-data", JStr "true")] JUndefined)
    as [[_ [C [_ H]]] [_ [_ [_ J]]]].
  exact (conj C (conj (H _ eq_refl) (J _ eq_refl))).
Defined.

(** What the default branch of the dispatch does. *)
Lemma routeByExtension_default (env : Collaborators) (req : Request) (res : ResArg) (w : World) :
  toLowerCase (ext req) <> "html" -> toLowerCase (ext req) <> "yaml" ->
  routeByExtension env req res w =
  (write_log Info "routeByExtension" None ;;;
   set_accept "application/json" ;;; getRouteFromComponent env req res) w.
Proof.
  intros H Y. unfold routeByExtension.
  apply String.eqb_neq in H, Y. now rewrite H, Y.
Qed.

Lemma getRouteFromComponent_run (env : Collaborators) (req : Request) (a : option string) :
  let w := snd ((write_log Info "routeByExtension" None ;;;
                 set_accept "application/json" ;;;
                 getRouteFromComponent env req ResObject) (init_world a)) in
  accept w = Some "application/json" /\
  calls w = [CallGetComponentData (normalizePath (url req))] /\
  (forall d, getComponentData env (normalizePath (url req)) = Fulfilled d ->
     response w = Some (mkResponse 200 (SendJSON d))).
Proof.
  cbv zeta. unfold getRouteFromComponent, expectJSON.
  unfold try_then_catch, bind, ret, set_accept, write_log, record_call, method, send.
  cbn -[caught].
  destruct (getComponentData env _) as [d|e] eqn:R.
  - cbn. split; [reflexivity|]. split; [reflexivity|].
    intros d' E. now injection E as ->.
  - match goal with
    | |- context [caught ?f ?e ?w] =>
        destruct (caught_handleError_frame env ResObject e w) as [A C]
    end.
    rewrite A, C. cbn. split; [reflexivity|]. split; [reflexivity|discriminate].
Qed.

Lemma renderComponent_run (env : Collaborators) (req : Request) (a : option string) :
  let w := snd ((write_log Info "routeByExtension" None ;;;
                 set_accept "text/html" ;;;
                 renderComponent env req ResObject) (init_world a)) in
  accept w = Some "text/html" /\
  calls w = [CallRenderComponent (normalizePath (url req)) (ignore_data_of (query req))].
Proof.
  cbv zeta. rewrite <- pick_ignore_data. unfold renderComponent, expectHTML, normalizePath.
  unfold try_then_catch, bind, ret, set_accept, write_log, record_call, method, send.
  cbn -[pick caught].
  destruct (composer_renderComponent env _ _) as [h|e] eqn:R.
  - cbn -[pick]. now split.
  - match goal with
    | |- context [caught ?f ?e ?w] =>
        destruct (caught_handleError_frame env ResObject e w) as [A C]
    end.
    rewrite A, C. cbn -[pick]. now split.
Qed.

Lemma same_letter_lower (a b : ascii) :
  same_letter a b = true -> lower_ascii a = lower_ascii b.
Proof.
  unfold same_letter. intros H. apply orb_true_iff in H as [H|H].
  - now apply Ascii.eqb_eq in H as ->.
  - apply existsb_exists in H as (p & I & H).
    unfold letter_pairs, capitals, small_letters in I.
    cbn [list_ascii_of_string combine In] in I.
    repeat (destruct I as [<-|I];
            [cbn [fst snd] in H;
             apply orb_true_iff in H as [H|H];
             apply andb_true_iff in H as [X Y];
             apply Ascii.eqb_eq in X, Y; subst a b; reflexivity|]).
    destruct I.
Qed.

Lemma lower_same_letter (a : ascii) : same_letter a (lower_ascii a) = true.
Proof.
  destruct a as [b0 b1 b2 b3 b4 b5 b6 b7].
  destruct b0, b1, b2, b3, b4, b5, b6, b7; reflexivity.
Qed.

Lemma equal_ignoring_case_lower (s t : string) :
  equal_ignoring_case s t = true -> toLowerCase s = toLowerCase t.
Proof.
  revert t. induction s as [|a s IH]; intros [|b t] H; try discriminate H; [reflexivity|].
  cbn in H. apply andb_true_iff in H as [L H].
  cbn. now rewrite (same_letter_lower a b L), (IH t H).
Qed.

Lemma equal_ignoring_case_toLowerCase (s : string) :
  equal_ignoring_case s (toLowerCase s) = true.
Proof.
  induction s as [|a s IH]; [reflexivity|].
  cbn. now rewrite lower_same_letter, IH.
Qed.

Lemma not_equal_ignoring_case (s t : string) :
  toLowerCase t = t -> equal_ignoring_case s t = false -> toLowerCase s <> t.
Proof.
  intros T H E. rewrite <- E in H.
  now rewrite equal_ignoring_case_toLowerCase in H.
Qed.

(** C10: the case of the extension does not matter.  The dispatch runs as it
    does on the lowercased extension, and two requests whose extensions are
    equal up to the case of their letters run alike: an extension that reads
    html in any case forces text/html and renders the component, one that
    reads yaml in any case forces text/yaml and is answered with 501, and
    every other extension is handled as json is: Accept becomes
    application/json and the component's data is the JSON response. *)
Theorem routeByExtension_case_insensitive (env : Collaborators) (a : option string)
    (req : Request) :
  let run r := routeByExtension env r ResObject (init_world a) in
  let key := normalizePath (url req) in
  run req = run (with_ext req (toLowerCase (ext req))) /\
  (forall e, equal_ignoring_case (ext req) e = true -> run req = run (with_ext req e)) /\
  (equal_ignoring_case (ext req) "html" = true ->
   accept (snd (run req)) = Some "text/html" /\
   calls (snd (run req)) = [CallRenderComponent key (ignore_data_of (query req))]) /\
  (equal_ignoring_case (ext req) "yaml" = true ->
   accept (snd (run req)) = Some "text/yaml" /\
   response (snd (run req)) = Some (mkResponse 501 StatusText)) /\
  (equal_ignoring_case (ext req) "html" = false ->
   equal_ignoring_case (ext req) "yaml" = false ->
   run req = run (with_ext req "json") /\
   accept (snd (run req)) = Some "application/json" /\
   calls (snd (run req)) = [CallGetComponentData key] /\
   (forall d, getComponentData env key = Fulfilled d ->
      response (snd (run req)) = Some (mkResponse 200 (SendJSON d)))).
Proof.
  cbv zeta. split; [|split; [|split; [|split]]].
  - unfold routeByExtension. cbn [ext with_ext].
    rewrite toLowerCase_idempotent. reflexivity.
  - intros e E. apply equal_ignoring_case_lower in E.
    unfold routeByExtension. cbn [ext with_ext]. rewrite E. reflexivity.
  - intros E. apply equal_ignoring_case_lower in E.
    change (toLowerCase "html") with "html" in E.
    unfold routeByExtension. rewrite E. cbn [String.eqb Ascii.eqb Bool.eqb].
    apply renderComponent_run.
  - intros E. apply equal_ignoring_case_lower in E.
    change (toLowerCase "yaml") with "yaml" in E.
    unfold routeByExtension, notImplemented. rewrite E. cbn. now split.
  - intros H Y.
    apply not_equal_ignoring_case in H; [|reflexivity].
    apply not_equal_ignoring_case in Y; [|reflexivity].
    split.
    + rewrite (routeByExtension_default env req) by assumption.
      rewrite (routeByExtension_default env (with_ext req "json")); [reflexivity| |];
        cbn [ext with_ext]; change (toLowerCase "json") with "json"; discriminate.
    + rewrite (routeByExtension_default env req) by assumption.
      apply getRouteFromComponent_run.
Qed.

Lemma routeByExtension_case_insensitive_witness :
  let env := example_env example_data (ListOther "undefined") (fun _ => Fulfilled tt) in
  let request e := mkRequest ("/components/article." ++ e) e [("ignore-data", JStr "1")] JUndefined in
  let run e := routeByExtension env (request e) ResObject (init_world (Some "text/plain")) in
  run "HtMl" = routeByExtension env (with_ext (request "HtMl") "html") ResObject
                 (init_world (Some "text/plain")) /\
  (accept (snd (run "HTML")) = Some "text/html" /\
   calls (snd (run "HTML")) =
     [CallRenderComponent "/components/article" [("ignore-data", JStr "1")]]) /\
  (accept (snd (run "Yaml")) = Some "text/yaml" /\
   response (snd (run "Yaml")) = Some (mkResponse 501 StatusText)) /\
  (accept (snd (run "TXT")) = Some "application/json" /\
   response (snd (run "TXT")) =
     Some (mkResponse 200 (SendJSON (JObj [("component", JStr "/components/article")])))).
Proof.
  cbv zeta.
  pose (env := example_env example_data (ListOther "undefined") (fun _ => Fulfilled tt)).
  pose (request := fun e : string =>
          mkRequest ("/components/article." ++ e) e [("ignore-data", JStr "1")] JUndefined).
  destruct (routeByExtension_case_insensitive env (Some "text/plain") (request "HtMl"))
    as (_ & V & _).
  destruct (routeByExtension_case_insensitive env (Some "text/plain") (request "HTML"))
    as (_ & _ & H & _).
  destruct (routeByExtension_case_insensitive env (Some "text/plain") (request "Yaml"))
    as (_ & _ & _ & Y & _).
  destruct (routeByExtension_case_insensitive env (Some "text/plain") (request "TXT"))
    as (_ & _ & _ & _ & T).
  destruct (T eq_refl eq_refl) as (_ & A & _ & R).
  exact (conj (V "html" eq_refl) (conj (H eq_refl) (conj (Y eq_refl) (conj A (R _ eq_refl))))).
Defined.

(** The extension is matched whatever its case. *)
Example routeByExtension_upper_case_html :
  let env := example_env example_data (ListOther "undefined") (fun _ => Fulfilled tt) in
  let w := snd (routeByExtension env (mkRequest "/components/article.HTML" "HTML" [] JUndefined)
                  ResObject (init_world None)) in
  accept w = Some "text/html" /\ calls w = [CallRenderComponent "/components/article" []].
Proof. split; reflexivity. Qed.

(** ** List endpoints *)

(** When [db.list] returns a promise, nothing is ever sent to the caller:
    [expectJSON] runs with [res] undefined, so the success path throws at
    [res.json], and the rendering of that failure, or of a rejection, throws
    at [res.status]. *)
Lemma listAllWithPrefix_promise_never_responds (env : Collaborators) (req : Request)
    (a : option string) (p : Promise json) :
  db_list env (normalizePath (url req)) = ListPromise p ->
  let w := snd (listAllWithPrefix env req ResObject (init_world a)) in
  response w = None /\ exists e, unhandled w = [e].
Proof.
  intros H. cbv zeta. unfold listAllWithPrefix.
  unfold bind at 1. cbn -[normalizePath db_list expectJSON].
  rewrite H. unfold expectJSON, try_then_catch, ret. destruct p as [v|e].
  - unfold bind, method, throw, caught, handleError, lift, bind.
    change (classify (TypeError "Cannot read property 'json' of undefined"))
      with (Returns ServerError).
    cbn. eauto.
  - unfold caught, handleError, bind, lift.
    destruct (classify e) as [[|]|e'] eqn:C; cbn; [| |eauto].
    + unfold notFound, bind. destruct (is_Error e); cbn; eauto.
    + eauto.
Qed.

(** C9: on GET /pages with a list operation that returns a promise, the
    collection the promise resolves to is not sent to the caller, and a
    rejection is not rendered either: in both runs there is no response, and
    the TypeError thrown at [res.status] of the undefined [res] is left
    unhandled. *)
Theorem listAllWithPrefix_promise_unanswered :
  let req := mkRequest "/pages" "" [] JUndefined in
  let fulfilled := ListPromise (Fulfilled (JArr [JStr "/pages/a"; JStr "/pages/b"])) in
  let rejected := ListPromise (Rejected (Error "storage unavailable")) in
  let run listing :=
    snd (listAllWithPrefix (example_env example_data listing (fun _ => Fulfilled tt))
           req ResObject (init_world (Some "application/json"))) in
  (response (run fulfilled) = None /\
   unhandled (run fulfilled) = [TypeError "Cannot read property 'status' of undefined"]) /\
  (response (run rejected) = None /\
   unhandled (run rejected) = [TypeError "Cannot read property 'status' of undefined"]).
Proof. repeat split; reflexivity. Qed.

(** ** Page creation *)





Lemma choose_permutation {A : Type} (n : nat) (x : A) (l : list A) :
  Permutation (fst (choose n x l) :: snd (choose n x l)) (x :: l).
Proof.
  revert x l. induction n as [|n IH]; intros x l; [now destruct l|].
  destruct l as [|y l]; [reflexivity|].
  cbn. specialize (IH y l). destruct (choose n y l) as [z r]. cbn in *.
  rewrite perm_swap. now rewrite IH, perm_swap.
Qed.

(** A schedule settles every pending promise exactly once. *)
Lemma settle_order_permutation {A : Type} (schedule : list nat) (pending : list A) :
  Permutation (settle_order schedule pending) pending.
Proof.
  revert pending. induction schedule as [|n schedule IH]; intros [|x l]; try reflexivity.
  cbn. pose proof (choose_permutation n x l) as P.
  destruct (choose n x l) as [z r]. cbn in P.
  now rewrite IH.
Qed.

Lemma get_set_same (props : list (string * json)) (k : string) (v : json) :
  get (set props k v) k = v.
Proof.
  unfold get. induction props as [|[k' v'] props IH]; cbn.
  - now rewrite String.eqb_refl.
  - destruct (String.eqb k' k) eqn:E; cbn; [now rewrite String.eqb_refl|].
    now rewrite E.
Qed.

Lemma request_all_run (slots : list Slot) (w : World) :
  fold_right (fun s k => record_call (CallGetComponentData ("/components/" ++ slot_component s)) ;;; k)
             (ret tt) slots w =
  (Returns tt,
   mkWorld (accept w) (response w) (log w) (calls w ++ requested slots) (unhandled w)).
Proof.
  revert w. induction slots as [|s slots IH]; intros w.
  - cbn. unfold ret. rewrite app_nil_r. now destruct w.
  - cbn [fold_right]. unfold bind at 1. unfold record_call at 1.
    rewrite IH. cbn. now rewrite <- app_assoc.
Qed.

(** The run of [createPage], by the way the join and the commit end. *)
Lemma createPage_run (env : Collaborators) (schedule : list nat) (req : Request)
    (a : option string) :
  let slots := map (slot_of env) (pageData_of (req_body req)) in
  let d := fold_left (settle env) (settle_order schedule slots) (mkDraft [] 1 [] None) in
  let pageReference := "/pages/" ++ flake_next env 0 in
  let value := joined (layoutReference_of (req_body req)) slots d in
  let ops' := (ops d ++ [mkOp "put" pageReference (JObj value)])%list in
  let failed err := mkLog Err "Failed to create new page" (Some err) in
  createPage env schedule req ResObject (init_world a) =
  match rejection d with
  | Some err => (Returns tt, mkWorld a None [failed err] (requested slots) [])
  | None =>
      match db_batch env ops' with
      | Fulfilled _ =>
          (Returns tt,
           mkWorld a
             (Some (mkResponse 200 (SendJSON (JObj (set value "_ref" (JStr pageReference))))))
             [] (requested slots ++ [CallBatch ops']) [])
      | Rejected err =>
          (Returns tt, mkWorld a None [failed err] (requested slots ++ [CallBatch ops']) [])
      end
  end.
Proof.
  cbv zeta. unfold createPage. unfold bind at 1. rewrite request_all_run.
  unfold try_then_catch, getUniqueId.
  destruct (rejection _) as [err|]; [reflexivity|].
  unfold bind, record_call, ret. cbn.
  now destruct (db_batch env _).
Qed.

Lemma batches_requested (slots : list Slot) (w : World) :
  calls w = requested slots -> batches w = [].
Proof.
  unfold batches. intros ->. induction slots as [|s slots IH]; [reflexivity|exact IH].
Qed.

Lemma batches_committed (slots : list Slot) (o : list Op) (w : World) :
  calls w = (requested slots ++ [CallBatch o])%list -> batches w = [o].
Proof.
  unfold batches. intros ->. induction slots as [|s slots IH]; [reflexivity|exact IH].
Qed.

Lemma settle_keeps_rejection (env : Collaborators) (l : list Slot) (d : Draft) :
  rejection d <> None -> rejection (fold_left (settle env) l d) <> None.
Proof.
  revert d. induction l as [|s l IH]; intros d H; [exact H|].
  cbn [fold_left]. apply IH. unfold settle.
  destruct (slot_data s); cbn; [exact H|].
  destruct (rejection d); [discriminate|congruence].
Qed.

Lemma settle_rejected (env : Collaborators) (l : list Slot) (d : Draft) (s : Slot) (e : Failure) :
  In s l -> slot_data s = Rejected e -> rejection (fold_left (settle env) l d) <> None.
Proof.
  revert d. induction l as [|x l IH]; intros d I R; [destruct I|].
  destruct I as [->|I].
  - cbn [fold_left]. apply settle_keeps_rejection. unfold settle. rewrite R. cbn.
    destruct (rejection d); discriminate.
  - cbn [fold_left]. now apply IH.
Qed.

(** Whenever one slot's resolution is rejected, whatever the order in which
    the promises settle, [createPage] submits no batch, logs the failure and
    sends nothing to the caller. *)
Lemma createPage_resolution_failure (env : Collaborators) (schedule : list nat)
    (req : Request) (a : option string) (kv : string * json) (e : Failure) :
  In kv (pageData_of (req_body req)) ->
  getComponentData env ("/components/" ++ getComponentName env (snd kv)) = Rejected e ->
  let w := snd (createPage env schedule req ResObject (init_world a)) in
  batches w = [] /\ response w = None /\ List.length (log w) = 1%nat.
Proof.
  intros I R. cbv zeta. rewrite createPage_run.
  assert (rejection
            (fold_left (settle env)
               (settle_order schedule (map (slot_of env) (pageData_of (req_body req))))
               (mkDraft [] 1 [] None)) <> None) as N.
  { apply settle_rejected with (s := slot_of env kv) (e := e); [|exact R].
    apply Permutation_in with (l := map (slot_of env) (pageData_of (req_body req))).
    - symmetry. apply settle_order_permutation.
    - now apply in_map. }
  destruct (rejection _) as [err|]; [|congruence].
  split; [|now split].
  now apply batches_requested with (slots := map (slot_of env) (pageData_of (req_body req))).
Qed.

(** Whenever the commit is rejected, [createPage] logs the failure and sends
    nothing to the caller. *)
Lemma createPage_commit_failure (env : Collaborators) (schedule : list nat)
    (req : Request) (a : option string) (o : list Op) (e : Failure) :
  let w := snd (createPage env schedule req ResObject (init_world a)) in
  batches w = [o] -> db_batch env o = Rejected e ->
  response w = None /\ List.length (log w) = 1%nat.
Proof.
  cbv zeta. rewrite createPage_run.
  destruct (rejection _) as [err|]; [now split|].
  destruct (db_batch env _) as [u|err] eqn:B; [|now split].
  intros H R. exfalso.
  erewrite batches_committed in H by (cbn [snd calls]; reflexivity).
  injection H as E. rewrite <- E in R.
  discriminate (eq_trans (eq_sym R) B).
Qed.



(** The run of the second schedule, in full: the slot main settles first. *)
Example createPage_two_slots_run :
  let env := example_env example_data (ListOther "undefined") (fun _ => Fulfilled tt) in
  let w := snd (createPage env [1%nat] (example_page "story") ResObject (init_world None)) in
  batches w =
    [[mkOp "put" "/components/story/instances/1" (JObj [("component", JStr "/components/story")]);
      mkOp "put" "/components/title/instances/2" (JObj [("component", JStr "/components/title")]);
      mkOp "put" "/pages/0"
        (JObj [("layout", JStr "/components/layout/instances/main");
               ("head", JStr "/components/title/instances/2");
               ("main", JStr "/components/story/instances/1")])]] /\
  response w =
    Some (mkResponse 200
            (SendJSON (JObj [("layout", JStr "/components/layout/instances/main");
                             ("head", JStr "/components/title/instances/2");
                             ("main", JStr "/components/story/instances/1");
                             ("_ref", JStr "/pages/0")]))).
Proof. split; reflexivity. Qed.

(** C1: page creation on a failure.  With a slot whose component cannot be
    resolved no batch is submitted, in either order of settlement, but the
    caller is sent nothing: the failure is only logged.  The same holds when
    the commit of the batch is rejected. *)
Theorem createPage_failure_unanswered :
  let failed := [mkLog Err "Failed to create new page" (Some (Error "storage unavailable"))] in
  let unresolved := example_env example_data (ListOther "undefined") (fun _ => Fulfilled tt) in
  let uncommitted :=
    example_env example_data (ListOther "undefined")
      (fun _ => Rejected (Error "storage unavailable")) in
  let run env schedule second :=
    snd (createPage env schedule (example_page second) ResObject
           (init_world (Some "application/json"))) in
  (batches (run unresolved [] "missing") = [] /\
   response (run unresolved [] "missing") = None /\
   log (run unresolved [] "missing") = failed) /\
  (batches (run unresolved [1%nat] "missing") = [] /\
   response (run unresolved [1%nat] "missing") = None /\
   log (run unresolved [1%nat] "missing") = failed) /\
  (List.length (batches (run uncommitted [] "story")) = 1%nat /\
   response (run uncommitted [] "story") = None /\
   log (run uncommitted [] "story") = failed).
Proof. repeat split; reflexivity. Qed.

(** ** Order of the sites of a host *)

Section SortByKey.

Context {A : Type} (key : A -> Z).

Lemma insert_permutation (x : A) (l : list A) :
  Permutation (insert (by_key key) x l) (x :: l).
Proof.
  induction l as [|y l IH]; cbn; [reflexivity|].
  destruct ((by_key key) x y <=? 0); [reflexivity|].
  now rewrite IH, perm_swap.
Qed.

Lemma sort_permutation (l : list A) : Permutation (sort (by_key key) l) l.
Proof.
  induction l as [|x l IH]; cbn; [reflexivity|].
  now rewrite insert_permutation, IH.
Qed.

Lemma insert_sorted (x : A) (l : list A) :
  StronglySorted (key_le key) l -> StronglySorted (key_le key) (insert (by_key key) x l).
Proof.
  induction 1 as [|y l S IH F]; cbn; [repeat constructor|].
  destruct ((by_key key) x y <=? 0) eqn:C.
  - apply Z.leb_le in C. constructor; [now constructor|].
    constructor; [unfold key_le, by_key in *; lia|].
    eapply Forall_impl; [|exact F].
    unfold key_le, by_key in *. intros; lia.
  - apply Z.leb_gt in C. constructor; [exact IH|].
    eapply Permutation_Forall; [symmetry; apply insert_permutation|].
    constructor; [unfold key_le, by_key in *; lia|exact F].
Qed.

Lemma sort_sorted (l : list A) : StronglySorted (key_le key) (sort (by_key key) l).
Proof.
  induction l as [|x l IH]; cbn; [constructor|now apply insert_sorted].
Qed.

(** Stability: the elements of any one key keep their relative order. *)
Lemma insert_stable (k : Z) (x : A) (l : list A) :
  filter (fun a => key a =? k) (insert (by_key key) x l) =
  filter (fun a => key a =? k) (x :: l).
Proof.
  induction l as [|y l IH]; [reflexivity|].
  cbn [insert]. destruct ((by_key key) x y <=? 0) eqn:C; [reflexivity|].
  apply Z.leb_gt in C. cbn [filter] in *. rewrite IH.
  destruct (key x =? k) eqn:X, (key y =? k) eqn:Y; try reflexivity.
  apply Z.eqb_eq in X, Y. unfold by_key in C. lia.
Qed.

Lemma sort_stable (k : Z) (l : list A) :
  filter (fun a => key a =? k) (sort (by_key key) l) = filter (fun a => key a =? k) l.
Proof.
  induction l as [|x l IH]; [reflexivity|].
  cbn [sort fold_right]. fold (sort (by_key key) l).
  rewrite insert_stable. cbn [filter]. now rewrite IH.
Qed.

Lemma sorted_before_in (a b : A) (l : list A) :
  StronglySorted (key_le key) l -> before_in a b l -> key a <= key b.
Proof.
  intros S (l1 & l2 & l3 & ->).
  induction l1 as [|x l1 IH]; cbn in S.
  - apply StronglySorted_inv in S as [_ F].
    rewrite Forall_forall in F. apply F, in_or_app. right. now left.
  - apply StronglySorted_inv in S as [S _]. now apply IH.
Qed.

Lemma sorted_places_before (a b : A) (l : list A) :
  StronglySorted (key_le key) l -> In a l -> In b l -> key a < key b -> before_in a b l.
Proof.
  induction 1 as [|x l S IH F]; intros Ia Ib K; [destruct Ia|].
  rewrite Forall_forall in F.
  destruct Ia as [->|Ia], Ib as [->|Ib].
  - lia.
  - apply in_split in Ib as (l2 & l3 & ->). now exists [], l2, l3.
  - specialize (F _ Ia). unfold key_le in F. lia.
  - destruct (IH Ia Ib K) as (l1 & l2 & l3 & ->). now exists (x :: l1), l2, l3.
Qed.

End SortByKey.

Lemma list_ascii_of_string_app (p q : string) :
  list_ascii_of_string (p ++ q) = (list_ascii_of_string p ++ list_ascii_of_string q)%list.
Proof. induction p as [|c p IH]; cbn; [reflexivity|now rewrite IH]. Qed.

(** A path has at least as many segments as any of its prefixes. *)
Lemma proper_prefix_segments (a b : Site) :
  proper_prefix (path a) (path b) -> segments a <= segments b.
Proof.
  intros (rest & _ & E). unfold segments. rewrite E, !length_split.
  rewrite list_ascii_of_string_app, filter_app, length_app. lia.
Qed.

(** C4 (as amended): the routing table of a host holds the sites of that
    host, ascending in the number of path segments, sites with equally many
    segments in registry order; a site whose path is a proper prefix of
    another's never has more segments, and it comes before the other in the
    table whenever it has fewer. *)
Theorem sitesOnThisHost_order (sitesMap : list Site) (h : string) :
  let onHost := filter (fun s => String.eqb (host s) h) sitesMap in
  let table := sitesOnThisHost sitesMap h in
  Permutation table onHost /\
  (forall a b, before_in a b table -> segments a <= segments b) /\
  (forall n, filter (fun s => segments s =? n) table =
             filter (fun s => segments s =? n) onHost) /\
  (forall a b, In a sitesMap -> In b sitesMap -> host a = h -> host b = h ->
     proper_prefix (path a) (path b) ->
     segments a <= segments b /\
     (segments a < segments b -> before_in a b table)).
Proof.
  cbv zeta. unfold sitesOnThisHost.
  change by_depth with (by_key segments).
  split; [apply (sort_permutation segments)|].
  split; [intros a b; apply (sorted_before_in segments), sort_sorted|].
  split; [intros n; apply (sort_stable segments)|].
  intros a b Ia Ib Ha Hb P. split; [now apply proper_prefix_segments|].
  intros K. apply (sorted_places_before segments); [apply sort_sorted| | |exact K].
  - eapply Permutation_in; [symmetry; apply (sort_permutation segments)|].
    apply filter_In. split; [exact Ia|now apply String.eqb_eq].
  - eapply Permutation_in; [symmetry; apply (sort_permutation segments)|].
    apply filter_In. split; [exact Ib|now apply String.eqb_eq].
Qed.

Lemma sitesOnThisHost_order_witness :
  let root := mkSite "root" "example.com" "/" in
  let blog := mkSite "blog" "example.com" "/blog/" in
  let shop := mkSite "shop" "shop.example.com" "/" in
  let sitesMap := [blog; shop; root] in
  let table := sitesOnThisHost sitesMap "example.com" in
  (In root sitesMap /\ In blog sitesMap /\
   proper_prefix (path root) (path blog) /\ segments root < segments blog) /\
  before_in root blog table /\
  segments root <= segments blog.
Proof.
  cbv zeta.
  pose (root := mkSite "root" "example.com" "/").
  pose (blog := mkSite "blog" "example.com" "/blog/").
  pose (shop := mkSite "shop" "shop.example.com" "/").
  assert (In root [blog; shop; root]) as Ia by (simpl; auto).
  assert (In blog [blog; shop; root]) as Ib by (simpl; auto).
  assert (proper_prefix (path root) (path blog)) as P
    by (exists "blog/"; split; [discriminate|reflexivity]).
  assert (segments root < segments blog) as K by (vm_compute; reflexivity).
  destruct (sitesOnThisHost_order [blog; shop; root] "example.com") as (_ & S & _ & O).
  destruct (O root blog Ia Ib eq_refl eq_refl P) as [_ B].
  split; [now repeat split|].
  split; [exact (B K)|].
  exact (S root blog (B K)).
Defined.

(** C4, the claim as stated fails: "/" is a proper prefix of "/foo", both
    split into two segments, and with "/foo" first in the registry the table
    keeps it first: the site with the longer path does not come later. *)
Lemma sitesOnThisHost_prefix_not_later :
  let foo := mkSite "foo" "example.com" "/foo" in
  let root := mkSite "root" "example.com" "/" in
  let table := sitesOnThisHost [foo; root] "example.com" in
  proper_prefix (path root) (path foo) /\
  table = [foo; root] /\
  ~ before_in root foo table.
Proof.
  cbv zeta. split; [exists "foo"; split; [discriminate|reflexivity]|].
  split; [reflexivity|].
  change (sitesOnThisHost _ _)
    with [mkSite "foo" "example.com" "/foo"; mkSite "root" "example.com" "/"].
  intros (l1 & l2 & l3 & E).
  destruct l1 as [|x [|y l1]]; cbn in E.
  - discriminate.
  - injection E as _ E. destruct l2; discriminate.
  - injection E as _ _ E. destruct l1; discriminate.
Qed.

(** * Further properties of the module *)

(** ** Path normalisation, continued *)

Lemma before_comm (a b : ascii) (s : string) :
  before a (before b s) = before b (before a s).
Proof.
  induction s as [|c s IH]; [reflexivity|].
  cbn. destruct (Ascii.eqb c b) eqn:B, (Ascii.eqb c a) eqn:A; cbn;
    rewrite ?A, ?B; try reflexivity.
  now rewrite IH.
Qed.

Lemma before_rest (sep : ascii) (s : string) :
  exists rest, s = before sep s ++ rest /\ (rest = "" \/ exists r, rest = String sep r).
Proof.
  induction s as [|c s (rest & E & R)].
  - exists "". split; [reflexivity|now left].
  - cbn. destruct (Ascii.eqb c sep) eqn:C.
    + apply Ascii.eqb_eq in C as ->. exists (String sep s). split; [reflexivity|].
      right. now exists s.
    + exists rest. split; [cbn; now rewrite <- E|exact R].
Qed.

Lemma before_app_sep (sep : ascii) (p q : string) :
  before sep (p ++ String sep q) = before sep p.
Proof.
  induction p as [|c p IH]; cbn.
  - now rewrite Ascii.eqb_refl.
  - destruct (Ascii.eqb c sep); [reflexivity|now rewrite IH].
Qed.

Lemma has_char_app (c : ascii) (p q : string) :
  has_char c (p ++ q) = (has_char c p || has_char c q)%bool.
Proof.
  induction p as [|d p IH]; cbn; [reflexivity|].
  now rewrite IH, orb_assoc.
Qed.

(** X1: a key derived by [normalizePath] contains neither a dot nor a
    question mark. *)
Theorem normalizePath_clean (p : string) :
  has_char "." (normalizePath p) = false /\ has_char "?" (normalizePath p) = false.
Proof. split; [apply normalizePath_no_dot|apply normalizePath_no_query]. Qed.

(** X2: the paths that [normalizePath] leaves as they are, are exactly those
    without a dot and without a question mark. *)
Theorem normalizePath_fixed_point (p : string) :
  normalizePath p = p <-> has_char "." p = false /\ has_char "?" p = false.
Proof.
  split.
  - intros E. rewrite <- E. split; [apply normalizePath_no_dot|apply normalizePath_no_query].
  - intros [D Q]. unfold normalizePath.
    rewrite removeExtension_before, removeQueryString_before.
    now rewrite (before_absent "?" p Q), (before_absent "." p D).
Qed.

(** X3: stripping the extension and stripping the query string commute. *)
Theorem removeExtension_removeQueryString_commute (p : string) :
  removeExtension (removeQueryString p) = removeQueryString (removeExtension p).
Proof.
  rewrite !removeExtension_before, !removeQueryString_before. apply before_comm.
Qed.

(** X4: [normalizePath] only cuts: its result is a prefix of the path, and
    what it cuts off starts with the first dot or question mark. *)
Theorem normalizePath_is_prefix (p : string) :
  exists rest,
    p = normalizePath p ++ rest /\
    (rest = "" \/ exists r, rest = String "." r \/ rest = String "?" r).
Proof.
  unfold normalizePath. rewrite removeExtension_before, removeQueryString_before.
  destruct (before_rest "?" p) as (r1 & E1 & R1).
  destruct (before_rest "." (before "?" p)) as (r2 & E2 & R2).
  destruct R2 as [->|[r ->]].
  - exists r1. split.
    + rewrite E1 at 1. f_equal. rewrite E2 at 1.
      clear. induction (before "." (before "?" p)); cbn; [reflexivity|now f_equal].
    + destruct R1 as [->|[r ->]]; [now left|right; exists r; now right].
  - exists (String "." r ++ r1). split.
    + rewrite E1 at 1. rewrite E2 at 1.
      clear. induction (before "." (before "?" p)); cbn; [reflexivity|now f_equal].
    + right. exists (r ++ r1). now left.
Qed.

(** X5: the query string never reaches the key: a path and the same path
    followed by "?" and anything normalise to the same key. *)
Theorem normalizePath_ignores_query (p q : string) :
  normalizePath (p ++ String "?" q) = normalizePath p.
Proof.
  unfold normalizePath. rewrite !removeQueryString_before. now rewrite before_app_sep.
Qed.

(** X6: for a base path without dot and question mark, the base itself, the
    base with an extension, with a query string, and with both all normalise
    to the base. *)
Theorem normalizePath_same_resource (base : string)
    (D : has_char "." base = false) (Q : has_char "?" base = false) (e q : string) :
  normalizePath base = base /\
  normalizePath (base ++ String "." e) = base /\
  normalizePath (base ++ String "?" q) = base /\
  normalizePath (base ++ String "." (e ++ String "?" q)) = base.
Proof.
  assert (forall r, before "?" (before "." (base ++ String "." r)) = base) as E.
  { intros r. rewrite before_app_sep. now rewrite (before_absent "." base D), (before_absent "?" base Q). }
  unfold normalizePath. rewrite !removeExtension_before, !removeQueryString_before.
  repeat split.
  - now rewrite (before_absent "?" base Q), (before_absent "." base D).
  - rewrite before_comm. apply E.
  - rewrite before_app_sep. now rewrite (before_absent "?" base Q), (before_absent "." base D).
  - rewrite before_comm. apply E.
Qed.

Lemma normalizePath_same_resource_witness :
  normalizePath "/pages/home" = "/pages/home" /\
  normalizePath "/pages/home.html" = "/pages/home" /\
  normalizePath "/pages/home?edit=true" = "/pages/home" /\
  normalizePath "/pages/home.html?edit=true" = "/pages/home".
Proof.
  exact (normalizePath_same_resource "/pages/home" eq_refl eq_refl "html" "edit=true").
Defined.

(** ** Rendering of failures *)

(** X7: a Not-Found failure that is an [Error] is answered with status 404
    and a body that does not depend on the failure: the fixed JSON object,
    the fixed text or the bare status, by the negotiated format; the failure
    itself only goes to the log, at level info. *)
Theorem handleError_renders_not_found (env : Collaborators) (err : Failure) (w : World)
    (E : is_Error err = true) (C : classify err = Returns NotFound) :
  handleError env ResObject err w =
  (Returns tt,
   mkWorld (accept w)
     (Some (mkResponse 404
              (negotiated_body (negotiate env (accept w)) notFound_json "404 Not Found")))
     (log w ++ [mkLog Info "Not found: " (Some err)])
     (calls w) (unhandled w)).
Proof.
  rewrite handleError_dispatch, C. unfold notFound. rewrite E.
  run_handler. now destruct (negotiate env (accept w)).
Qed.

Lemma handleError_renders_not_found_witness :
  let env := example_env example_data (ListOther "undefined") (fun _ => Fulfilled tt) in
  let err := mkFailure true (Some "NotFoundError") (Some "Key not found in database [/pages/x]") in
  response (snd (handleError env ResObject err (init_world (Some "application/json")))) =
  Some (mkResponse 404 (SendJSON notFound_json)).
Proof.
  cbv zeta.
  rewrite (handleError_renders_not_found
             (example_env example_data (ListOther "undefined") (fun _ => Fulfilled tt))
             (mkFailure true (Some "NotFoundError") (Some "Key not found in database [/pages/x]"))
             (init_world (Some "application/json")) eq_refl eq_refl).
  reflexivity.
Defined.

(** X8: a Server Error is logged before anything is sent, whatever [res] is;
    with the response object it is answered with status 500, the JSON body
    carrying the failure's message and the code 500, the HTML body being the
    fixed text; with no response object the log line is still written and
    the handler throws. *)
Theorem handleError_renders_server_error (env : Collaborators) (err : Failure)
    (res : ResArg) (w : World) (C : classify err = Returns ServerError) :
  log (snd (handleError env res err w)) = (log w ++ [mkLog Err "" (Some err)])%list /\
  (res = ResObject ->
   handleError env res err w =
   (Returns tt,
    mkWorld (accept w)
      (Some (mkResponse 500
               (negotiated_body (negotiate env (accept w)) (serverError_json err)
                  "500 Server Error")))
      (log w ++ [mkLog Err "" (Some err)])
      (calls w) (unhandled w))) /\
  (res <> ResObject ->
   response (snd (handleError env res err w)) = response w /\
   exists e, fst (handleError env res err w) = Throws e).
Proof.
  rewrite handleError_dispatch, C. unfold serverError. run_handler.
  destruct res; cbn.
  - split; [now destruct (negotiate env (accept w))|].
    split; [intros _; now destruct (negotiate env (accept w))|congruence].
  - split; [reflexivity|]. split; [discriminate|]. intros _. split; [reflexivity|eauto].
  - split; [reflexivity|]. split; [discriminate|]. intros _. split; [reflexivity|eauto].
Qed.

Lemma handleError_renders_server_error_witness :
  let env := example_env example_data (ListOther "undefined") (fun _ => Fulfilled tt) in
  let err := Error "storage unavailable" in
  (response (snd (handleError env ResObject err (init_world (Some "text/html")))) =
     Some (mkResponse 500 (SendText "500 Server Error")) /\
   log (snd (handleError env ResUndefined err (init_world None))) = [mkLog Err "" (Some err)]) /\
  response (snd (handleError env ResUndefined err (init_world None))) = None.
Proof.
  cbv zeta.
  pose (env := example_env example_data (ListOther "undefined") (fun _ => Fulfilled tt)).
  destruct (handleError_renders_server_error env (Error "storage unavailable") ResObject
              (init_world (Some "text/html")) eq_refl) as (_ & R & _).
  destruct (handleError_renders_server_error env (Error "storage unavailable") ResUndefined
              (init_world None) eq_refl) as (L & _ & U).
  split; [split|].
  - fold env. rewrite (R eq_refl). reflexivity.
  - exact L.
  - apply U. discriminate.
Defined.

(** X9: a Not-Found failure that is not an [Error] object is taken for the
    response by [notFound]: nothing is logged, nothing is sent, and the
    handler throws, whatever [res] was. *)
Theorem handleError_not_found_non_error (env : Collaborators) (err : Failure)
    (res : ResArg) (w : World)
    (E : is_Error err = false) (C : classify err = Returns NotFound) :
  handleError env res err w = (Throws (TypeError "undefined is not a function"), w).
Proof.
  rewrite handleError_dispatch, C. unfold notFound. rewrite E. reflexivity.
Qed.

Lemma handleError_not_found_non_error_witness :
  let env := example_env example_data (ListOther "undefined") (fun _ => Fulfilled tt) in
  let err := mkFailure false (Some "NotFoundError") None in
  response (snd (handleError env ResObject err (init_world (Some "application/json")))) = None.
Proof.
  cbv zeta.
  rewrite (handleError_not_found_non_error
             (example_env example_data (ListOther "undefined") (fun _ => Fulfilled tt))
             (mkFailure false (Some "NotFoundError") None) ResObject
             (init_world (Some "application/json")) eq_refl eq_refl).
  reflexivity.
Defined.

(** ** The response envelope *)

Lemma caught_handleError_answers (env : Collaborators) (e : Failure) (w : World) :
  is_Error e = true -> err_message e <> None ->
  exists resp l,
    caught (handleError env ResObject) e w =
    (Returns tt, mkWorld (accept w) (Some resp) l (calls w) (unhandled w)) /\
    (status resp = 404 \/ status resp = 500).
Proof.
  intros E M. unfold caught. rewrite handleError_dispatch.
  destruct (classify e) as [[|]|e'] eqn:C.
  - unfold notFound. rewrite E. run_handler.
    destruct (negotiate env (accept w)); eexists; eexists; (split; [reflexivity|now left]).
  - unfold serverError. run_handler.
    destruct (negotiate env (accept w)); eexists; eexists; (split; [reflexivity|now right]).
  - exfalso. unfold classify in C.
    destruct (name_is e "NotFoundError"); [discriminate|].
    destruct (err_message e) as [m|]; [|congruence].
    destruct (negb (indexOf m "ENOENT" =? -1)); [discriminate|].
    destruct (negb (indexOf m "not found" =? -1)); discriminate.
Qed.

Lemma envelope_answers {A : Type} (env : Collaborators) (fn : M (Promise A))
    (m : string) (body : A -> Body) (w : World) :
  (forall e, fails_with (fst (fn w)) e -> is_Error e = true /\ err_message e <> None) ->
  let r := try_then_catch fn
             (fun result => method ResObject m ;;; send (mkResponse 200 (body result)))
             (handleError env ResObject) w in
  fst r = Returns tt /\
  unhandled (snd r) = unhandled (snd (fn w)) /\
  calls (snd r) = calls (snd (fn w)) /\
  exists resp, response (snd r) = Some resp /\ answer_for body (fst (fn w)) resp.
Proof.
  intros H. cbv zeta. unfold try_then_catch.
  destruct (fn w) as [[[v|e]|e] w1] eqn:F; cbn [fst snd] in *.
  - cbn. repeat split; eauto.
  - destruct (H e) as [E M]; [now right|].
    destruct (caught_handleError_answers env e w1 E M) as (resp & l & -> & S).
    cbn. repeat split; eauto.
  - destruct (H e) as [E M]; [now left|].
    destruct (caught_handleError_answers env e w1 E M) as (resp & l & -> & S).
    cbn. repeat split; eauto.
Qed.

(** X10: with the response object, [expectJSON] and [expectHTML] always
    answer, provided the failure they may meet is an [Error] carrying a
    message: a fulfilled computation gets status 200 with its result as JSON,
    respectively as text; a computation that throws and one whose promise
    is rejected are treated alike and get status 404 or 500.  Neither
    wrapper throws, and no rejection is left unhandled. *)
Theorem envelope_always_answers (env : Collaborators) (w : World)
    (fj : M (Promise json)) (fh : M (Promise string))
    (Hj : forall e, fails_with (fst (fj w)) e -> is_Error e = true /\ err_message e <> None)
    (Hh : forall e, fails_with (fst (fh w)) e -> is_Error e = true /\ err_message e <> None) :
  (fst (expectJSON env fj ResObject w) = Returns tt /\
   unhandled (snd (expectJSON env fj ResObject w)) = unhandled (snd (fj w)) /\
   exists resp, response (snd (expectJSON env fj ResObject w)) = Some resp /\
                answer_for SendJSON (fst (fj w)) resp) /\
  (fst (expectHTML env fh ResObject w) = Returns tt /\
   unhandled (snd (expectHTML env fh ResObject w)) = unhandled (snd (fh w)) /\
   exists resp, response (snd (expectHTML env fh ResObject w)) = Some resp /\
                answer_for SendText (fst (fh w)) resp).
Proof.
  split.
  - destruct (envelope_answers env fj "json" SendJSON w Hj) as (R & U & _ & A).
    now repeat split.
  - destruct (envelope_answers env fh "send" SendText w Hh) as (R & U & _ & A).
    now repeat split.
Qed.

Lemma envelope_always_answers_witness :
  let env := example_env example_data (ListOther "undefined") (fun _ => Fulfilled tt) in
  let w := init_world (Some "application/json") in
  let fj : M (Promise json) := throw (Error "storage unavailable") in
  let fh : M (Promise string) := ret (Fulfilled "<article></article>") in
  (exists resp, response (snd (expectJSON env fj ResObject w)) = Some resp /\
                (status resp = 404 \/ status resp = 500)) /\
  (exists resp, response (snd (expectHTML env fh ResObject w)) = Some resp /\
                resp = mkResponse 200 (SendText "<article></article>")).
Proof.
  cbv zeta.
  pose (env := example_env example_data (ListOther "undefined") (fun _ => Fulfilled tt)).
  pose (w := init_world (Some "application/json")).
  assert (forall e, fails_with (fst (@throw (Promise json) (Error "storage unavailable") w)) e ->
                    is_Error e = true /\ err_message e <> None) as Hj.
  { intros e [H|H]; [|discriminate H]. injection H as <-. split; [reflexivity|discriminate]. }
  assert (forall e, fails_with (fst (@ret (Promise string) (Fulfilled "<article></article>") w)) e ->
                    is_Error e = true /\ err_message e <> None) as Hh.
  { intros e [H|H]; discriminate H. }
  destruct (envelope_always_answers env w _ _ Hj Hh) as [(_ & _ & J) (_ & _ & T)].
  split; [exact J|exact T].
Defined.

(** ** List endpoints, continued *)

Lemma log_stream_errors_run (errors : list Failure) (k : M unit) (w : World) :
  fold_right (fun e k => write_log Err "listAllWithPrefix::error" (Some e) ;;; k) k errors w =
  k (mkWorld (accept w) (response w)
       (log w ++ map (fun e => mkLog Err "listAllWithPrefix::error" (Some e)) errors)
       (calls w) (unhandled w)).
Proof.
  revert w. induction errors as [|e errors IH]; intros w.
  - cbn. rewrite app_nil_r. now destruct w.
  - cbn [fold_right map]. unfold bind at 1. unfold write_log at 1.
    rewrite IH. cbn. now rewrite <- app_assoc.
Qed.

(** X11: the list endpoints by the shape of what [db.list] returns.  A
    stream is piped to the response whatever errors it emits, and each error
    is logged, in order; any other value that is not a promise makes the
    handler throw an [Error] that names the type of the value, with nothing
    sent and nothing logged.  In both cases [db.list] was asked for the
    normalised path. *)
Theorem listAllWithPrefix_by_shape (env : Collaborators) (req : Request) (w : World) :
  let key := normalizePath (url req) in
  (forall errors data, db_list env key = ListStream errors data ->
     listAllWithPrefix env req ResObject w =
     (Returns tt,
      mkWorld (accept w) (Some (mkResponse 200 (Piped data)))
        (log w ++ map (fun e => mkLog Err "listAllWithPrefix::error" (Some e)) errors)
        (calls w ++ [CallList key]) (unhandled w))) /\
  (forall typeof, db_list env key = ListOther typeof ->
     listAllWithPrefix env req ResObject w =
     (Throws (Error ("listAllWithPrefix cannot handle type " ++ typeof)),
      mkWorld (accept w) (response w) (log w) (calls w ++ [CallList key]) (unhandled w))).
Proof.
  cbv zeta. split.
  - intros errors data H. unfold listAllWithPrefix. unfold bind at 1.
    cbn -[normalizePath db_list bind]. rewrite H.
    unfold bind. rewrite log_stream_errors_run. reflexivity.
  - intros typeof H. unfold listAllWithPrefix. unfold bind at 1.
    cbn -[normalizePath db_list]. now rewrite H.
Qed.

Lemma listAllWithPrefix_by_shape_witness :
  let failing := Error "read error" in
  let streaming :=
    example_env example_data (ListStream [failing] "[]") (fun _ => Fulfilled tt) in
  let broken := example_env example_data (ListOther "number") (fun _ => Fulfilled tt) in
  let req := mkRequest "/uris?limit=5" "" [] JUndefined in
  snd (listAllWithPrefix streaming req ResObject (init_world None)) =
    mkWorld None (Some (mkResponse 200 (Piped "[]")))
      [mkLog Err "listAllWithPrefix::error" (Some failing)] [CallList "/uris"] [] /\
  fst (listAllWithPrefix broken req ResObject (init_world None)) =
    Throws (Error "listAllWithPrefix cannot handle type number").
Proof.
  cbv zeta. split.
  - rewrite (proj1 (listAllWithPrefix_by_shape
                      (example_env example_data (ListStream [Error "read error"] "[]")
                         (fun _ => Fulfilled tt))
                      (mkRequest "/uris?limit=5" "" [] JUndefined) (init_world None))
               [Error "read error"] "[]" eq_refl).
    reflexivity.
  - rewrite (proj2 (listAllWithPrefix_by_shape
                      (example_env example_data (ListOther "number") (fun _ => Fulfilled tt))
                      (mkRequest "/uris?limit=5" "" [] JUndefined) (init_world None))
               "number" eq_refl).
    reflexivity.
Defined.

(** ** The JSON routes on storage *)

Lemma caught_not_found_run (env : Collaborators) (e : Failure) (w : World) :
  is_Error e = true -> err_name e = Some "NotFoundError" ->
  response (snd (caught (handleError env ResObject) e w)) =
  Some (mkResponse 404 (negotiated_body (negotiate env (accept w)) notFound_json "404 Not Found")).
Proof.
  intros E N. unfold caught. rewrite handleError_dispatch.
  unfold classify. apply name_is_spec in N. rewrite N.
  unfold notFound. rewrite E. run_handler.
  now destruct (negotiate env (accept w)).
Qed.

Lemma expectJSON_settled (env : Collaborators) (p : Promise json) (w : World) :
  expectJSON env (ret p) ResObject w =
  match p with
  | Fulfilled v =>
      (Returns tt,
       mkWorld (accept w) (Some (mkResponse 200 (SendJSON v))) (log w) (calls w) (unhandled w))
  | Rejected e => caught (handleError env ResObject) e w
  end.
Proof. unfold expectJSON, try_then_catch, ret. now destruct p. Qed.

(** X12: GET of a page or uri straight from the db.  When the key holds a
    text that parses, the parsed value is the JSON response with status 200;
    when the text does not parse, the [JSON.parse] failure is answered like
    any other failure, with status 404 or 500, and never with 200. *)
Theorem getRouteFromDB_outcomes (env : Collaborators) (store : Storage)
    (req : Request) (a : option string) (t : string)
    (G : db_get store (normalizePath (url req)) = Fulfilled t) :
  let w := snd (getRouteFromDB env store req ResObject (init_world a)) in
  (forall v, JSON_parse store t = Returns v ->
     response w = Some (mkResponse 200 (SendJSON v))) /\
  (forall e, JSON_parse store t = Throws e ->
     is_Error e = true -> err_message e <> None ->
     exists resp, response w = Some resp /\ (status resp = 404 \/ status resp = 500)).
Proof.
  cbv zeta. unfold getRouteFromDB. rewrite expectJSON_settled, G. unfold then_sync.
  split.
  - intros v P. now rewrite P.
  - intros e P E M. rewrite P.
    destruct (caught_handleError_answers env e (init_world a) E M) as (resp & l & -> & S).
    exists resp. split; [reflexivity|exact S].
Qed.

Lemma getRouteFromDB_outcomes_witness :
  let env := example_env example_data (ListOther "undefined") (fun _ => Fulfilled tt) in
  let req := mkRequest "/pages/home.json" "" [] JUndefined in
  response (snd (getRouteFromDB env (example_store "{}") req ResObject (init_world None))) =
    Some (mkResponse 200 (SendJSON (JObj []))) /\
  exists resp,
    response (snd (getRouteFromDB env (example_store "home") req ResObject (init_world None))) =
      Some resp /\
    (status resp = 404 \/ status resp = 500).
Proof.
  cbv zeta.
  pose (env := example_env example_data (ListOther "undefined") (fun _ => Fulfilled tt)).
  pose (req := mkRequest "/pages/home.json" "" [] JUndefined).
  split.
  - apply (proj1 (getRouteFromDB_outcomes env (example_store "{}") req None "{}" eq_refl)).
    reflexivity.
  - apply (proj2 (getRouteFromDB_outcomes env (example_store "home") req None "home" eq_refl)
             (mkFailure true (Some "SyntaxError") (Some "Unexpected token"))).
    + reflexivity.
    + reflexivity.
    + discriminate.
Defined.

(** X13: a missing key is a 404 on every JSON route: when the operation a
    route calls is rejected with an [Error] named NotFoundError, the route
    answers with status 404 and the negotiated Not-Found body. *)
Theorem missing_key_is_404 (env : Collaborators) (store : Storage) (req : Request)
    (a : option string) (e : Failure)
    (E : is_Error e = true) (N : err_name e = Some "NotFoundError") :
  let key := normalizePath (url req) in
  let answered handler :=
    response (snd (handler req ResObject (init_world a))) =
    Some (mkResponse 404 (negotiated_body (negotiate env a) notFound_json "404 Not Found")) in
  (getComponentData env key = Rejected e -> answered (getRouteFromComponent env)) /\
  (references_putComponentData store key (req_body req) = Rejected e ->
     answered (putRouteFromComponent env store)) /\
  (db_get store key = Rejected e -> answered (getRouteFromDB env store)) /\
  (db_put store key (JSON_stringify store (req_body req)) = Rejected e ->
     answered (putRouteFromDB env store)) /\
  (references_getSchema store key = Rejected e -> answered (getSchema env store)).
Proof.
  cbv zeta. repeat split; intros R.
  - unfold getRouteFromComponent, expectJSON, try_then_catch, bind, record_call, ret.
    cbn -[caught normalizePath]. rewrite R.
    now rewrite (caught_not_found_run env e _ E N).
  - unfold putRouteFromComponent. rewrite expectJSON_settled, R.
    now rewrite (caught_not_found_run env e _ E N).
  - unfold getRouteFromDB. rewrite expectJSON_settled, R. cbn [then_sync].
    now rewrite (caught_not_found_run env e _ E N).
  - unfold putRouteFromDB. rewrite expectJSON_settled, R.
    now rewrite (caught_not_found_run env e _ E N).
  - unfold getSchema. fold (normalizePath (url req)). rewrite expectJSON_settled, R.
    now rewrite (caught_not_found_run env e _ E N).
Qed.

Lemma missing_key_is_404_witness :
  let missing := mkFailure true (Some "NotFoundError") (Some "Key not found in database") in
  let env := example_env (fun _ => Rejected missing) (ListOther "undefined") (fun _ => Fulfilled tt) in
  let store :=
    mkStorage (fun _ => Rejected missing) (fun _ _ => Rejected missing)
      (fun _ => Returns JNull) (fun _ => "null")
      (fun _ _ => Rejected missing) (fun _ => Rejected missing) in
  let req := mkRequest "/pages/nowhere" "" [] JNull in
  let answered (handler : Request -> ResArg -> M unit) :=
    response (snd (handler req ResObject (init_world (Some "text/html")))) =
    Some (mkResponse 404 (SendText "404 Not Found")) in
  answered (getRouteFromComponent env) /\
  answered (putRouteFromComponent env store) /\
  answered (getRouteFromDB env store) /\
  answered (putRouteFromDB env store) /\
  answered (getSchema env store).
Proof.
  cbv zeta.
  pose (missing := mkFailure true (Some "NotFoundError") (Some "Key not found in database")).
  pose (env := example_env (fun _ => Rejected missing) (ListOther "undefined")
                 (fun _ => Fulfilled tt)).
  pose (store := mkStorage (fun _ => Rejected missing) (fun _ _ => Rejected missing)
                   (fun _ => Returns JNull) (fun _ => "null")
                   (fun _ _ => Rejected missing) (fun _ => Rejected missing)).
  destruct (missing_key_is_404 env store (mkRequest "/pages/nowhere" "" [] JNull)
              (Some "text/html") missing eq_refl eq_refl) as (A & B & C & D & F).
  exact (conj (A eq_refl) (conj (B eq_refl) (conj (C eq_refl) (conj (D eq_refl) (F eq_refl))))).
Defined.

(** ** Page creation, continued *)











(** X16: [createPage] submits at most one batch, and it sends a response if
    and only if it submitted a batch whose commit succeeded; in every other
    run the caller is sent nothing. *)
Theorem createPage_responds_iff_committed (env : Collaborators) (schedule : list nat)
    (a : option string) (req : Request) :
  let w := snd (createPage env schedule req ResObject (init_world a)) in
  (List.length (batches w) <= 1)%nat /\
  ((exists r, response w = Some r) <->
   (exists o, batches w = [o] /\ db_batch env o = Fulfilled tt)).
Proof.
  cbv zeta. rewrite createPage_run.
  destruct (rejection _) as [err|].
  - erewrite batches_requested by (cbn [snd calls]; reflexivity).
    split; [cbn; lia|]. split.
    + intros [r H]. discriminate H.
    + intros (o & H & _). discriminate H.
  - destruct (db_batch env _) as [[]|err] eqn:B;
      (erewrite batches_committed by (cbn [snd calls]; reflexivity));
      (split; [cbn; lia|]); split.
    + intros _. eexists. split; [reflexivity|exact B].
    + intros _. eexists. reflexivity.
    + intros [r H]. discriminate H.
    + intros (o & H & C). injection H as <-. discriminate (eq_trans (eq_sym B) C).
Qed.


(** ** Order of the sites of a host, continued *)

Lemma occurrences_app (c : ascii) (p q : string) :
  occurrences c (p ++ q) = (occurrences c p + occurrences c q)%nat.
Proof.
  unfold occurrences. now rewrite list_ascii_of_string_app, filter_app, length_app.
Qed.

Lemma occurrences_has_char (c : ascii) (s : string) :
  has_char c s = true <-> (0 < occurrences c s)%nat.
Proof.
  unfold occurrences. induction s as [|d s IH]; cbn.
  - split; [discriminate|lia].
  - rewrite (Ascii.eqb_sym c d). destruct (Ascii.eqb d c); cbn; [split; [lia|reflexivity]|exact IH].
Qed.

Lemma sort_sorted_same {A : Type} (key : A -> Z) (l : list A) :
  StronglySorted (key_le key) l -> sort (by_key key) l = l.
Proof.
  induction 1 as [|x l S IH F]; [reflexivity|].
  cbn [sort fold_right]. fold (sort (by_key key) l). rewrite IH.
  destruct l as [|y l]; [reflexivity|].
  cbn [insert]. apply Forall_inv in F. unfold key_le in F. unfold by_key.
  destruct (key x - key y <=? 0) eqn:C; [reflexivity|].
  apply Z.leb_gt in C. lia.
Qed.

(** X17: the depth by which sites are sorted is one more than the number of
    slashes in the path; so a path that extends another has as many segments
    more as the extension has slashes, and the two tie exactly when the
    extension has none. *)
Theorem segments_count_slashes (a b : Site) (rest : string) :
  segments a = Z.of_nat (S (occurrences "/" (path a))) /\
  (path b = path a ++ rest ->
   segments b = segments a + Z.of_nat (occurrences "/" rest) /\
   (segments b = segments a <-> has_char "/" rest = false)).
Proof.
  assert (forall s, segments s = Z.of_nat (S (occurrences "/" (path s)))) as E
    by (intros s; unfold segments, occurrences; now rewrite length_split).
  split; [apply E|].
  intros P. rewrite !E, P, occurrences_app. split; [lia|].
  rewrite <- Bool.not_true_iff_false, occurrences_has_char. lia.
Qed.

Lemma segments_count_slashes_witness :
  let root := mkSite "root" "example.com" "/" in
  let foo := mkSite "foo" "example.com" "/foo" in
  segments root = 2 /\ segments foo = segments root.
Proof.
  cbv zeta.
  destruct (segments_count_slashes (mkSite "root" "example.com" "/")
              (mkSite "foo" "example.com" "/foo") "foo") as [R P].
  split; [exact R|].
  destruct (P eq_refl) as [_ T]. apply T. reflexivity.
Defined.

(** X18: in the table of a host, a site comes before every site of the host
    whose path extends its own by something that contains a slash; so for
    paths that all end in a slash the less specific site always comes first. *)
Theorem sitesOnThisHost_deeper_later (sitesMap : list Site) (h : string)
    (a b : Site) (rest : string)
    (Ia : In a sitesMap) (Ib : In b sitesMap) (Ha : host a = h) (Hb : host b = h)
    (P : path b = path a ++ rest) (S : has_char "/" rest = true) :
  before_in a b (sitesOnThisHost sitesMap h).
Proof.
  unfold sitesOnThisHost. change by_depth with (by_key segments).
  apply (sorted_places_before segments); [apply sort_sorted| | |].
  - eapply Permutation_in; [symmetry; apply (sort_permutation segments)|].
    apply filter_In. split; [exact Ia|now apply String.eqb_eq].
  - eapply Permutation_in; [symmetry; apply (sort_permutation segments)|].
    apply filter_In. split; [exact Ib|now apply String.eqb_eq].
  - unfold segments. rewrite !length_split, P.
    fold (occurrences "/" (path a ++ rest)). fold (occurrences "/" (path a)).
    rewrite occurrences_app. apply occurrences_has_char in S. lia.
Qed.

Lemma sitesOnThisHost_deeper_later_witness :
  let root := mkSite "root" "example.com" "/" in
  let docs := mkSite "docs" "example.com" "/docs/" in
  before_in root docs (sitesOnThisHost [docs; root] "example.com").
Proof.
  cbv zeta.
  apply (sitesOnThisHost_deeper_later
           [mkSite "docs" "example.com" "/docs/"; mkSite "root" "example.com" "/"]
           "example.com" (mkSite "root" "example.com" "/")
           (mkSite "docs" "example.com" "/docs/") "docs/").
  - simpl. auto.
  - simpl. auto.
  - reflexivity.
  - reflexivity.
  - reflexivity.
  - reflexivity.
Defined.

Lemma filter_all {A : Type} (f : A -> bool) (l : list A) :
  Forall (fun x => f x = true) l -> filter f l = l.
Proof.
  induction 1 as [|x l H F IH]; cbn; [reflexivity|]. now rewrite H, IH.
Qed.

(** X19: the sites of a host that the registry already lists by ascending
    depth are taken over in registry order; and the table built from a table
    is that table. *)
Theorem sitesOnThisHost_keeps_sorted (sitesMap : list Site) (h : string) :
  (StronglySorted (key_le segments) (filter (fun s => String.eqb (host s) h) sitesMap) ->
   sitesOnThisHost sitesMap h = filter (fun s => String.eqb (host s) h) sitesMap) /\
  sitesOnThisHost (sitesOnThisHost sitesMap h) h = sitesOnThisHost sitesMap h.
Proof.
  split.
  - intros S. unfold sitesOnThisHost. change by_depth with (by_key segments).
    now apply sort_sorted_same.
  - unfold sitesOnThisHost at 1. change by_depth with (by_key segments).
    rewrite filter_all.
    + apply sort_sorted_same. unfold sitesOnThisHost.
      change by_depth with (by_key segments). apply sort_sorted.
    + apply Forall_forall. intros s I. unfold sitesOnThisHost in I.
      change by_depth with (by_key segments) in I.
      apply (Permutation_in _ (sort_permutation segments _)) in I.
      now apply filter_In in I.
Qed.

Lemma sitesOnThisHost_keeps_sorted_witness :
  let registry := [mkSite "root" "example.com" "/"; mkSite "shop" "shop.example.com" "/";
                   mkSite "docs" "example.com" "/docs/"] in
  sitesOnThisHost registry "example.com" =
  [mkSite "root" "example.com" "/"; mkSite "docs" "example.com" "/docs/"].
Proof.
  cbv zeta.
  apply (proj1 (sitesOnThisHost_keeps_sorted
                  [mkSite "root" "example.com" "/"; mkSite "shop" "shop.example.com" "/";
                   mkSite "docs" "example.com" "/docs/"] "example.com")).
  cbn. repeat constructor; unfold key_le; vm_compute; discriminate.
Defined.

(** ** Request context *)

Lemma get_set_other (l : list (string * json)) (k k' : string) (v : json) :
  k <> k' -> get (set l k v) k' = get l k'.
Proof.
  intros N. unfold get. induction l as [|[x y] l IH]; cbn.
  - apply String.eqb_neq in N. now rewrite N.
  - destruct (String.eqb x k) eqn:E; cbn.
    + apply String.eqb_eq in E as ->. apply String.eqb_neq in N. now rewrite N.
    + destruct (String.eqb x k'); [reflexivity|exact IH].
Qed.

(** X20: the context middleware.  [addSiteLocals] sets [site] to the slug
    and [url] to protocol, host and original url, and leaves every other
    local as it was; [addEditMode] sets [isEditMode] to a boolean, true
    exactly when the query has a truthy [edit], and leaves every other local
    as it was.  For a string value that means: true for every non-empty
    string, "false" and "0" included. *)
Theorem request_context (slug : string) (req : Incoming) (locals : Locals) :
  get (addSiteLocals slug req locals) "site" = JStr slug /\
  get (addSiteLocals slug req locals) "url" =
    JStr (in_protocol req ++ "://" ++ header_text (in_host req) ++ in_originalUrl req) /\
  (forall k, k <> "site" -> k <> "url" ->
     get (addSiteLocals slug req locals) k = get locals k) /\
  get (addEditMode req locals) "isEditMode" = JBool (truthy (get (in_query req) "edit")) /\
  (forall k, k <> "isEditMode" -> get (addEditMode req locals) k = get locals k) /\
  (forall s, get (in_query req) "edit" = JStr s ->
     get (addEditMode req locals) "isEditMode" = JBool (negb (String.eqb s ""))) /\
  (lookup "edit" (in_query req) = None ->
     get (addEditMode req locals) "isEditMode" = JBool false).
Proof.
  unfold addSiteLocals, addEditMode.
  split; [apply get_set_same|].
  split; [rewrite get_set_other by discriminate; apply get_set_same|].
  split; [intros k S U; rewrite !get_set_other by congruence; reflexivity|].
  split; [apply get_set_same|].
  split; [intros k E; rewrite get_set_other by congruence; reflexivity|].
  split.
  - intros s E. now rewrite get_set_same, E.
  - intros E. rewrite get_set_same. unfold get. now rewrite E.
Qed.

Lemma request_context_witness :
  let req := mkIncoming "GET" "http" (Some "example.com") "/docs/intro?edit=false"
               [("edit", JStr "false")] [] in
  let locals := addEditMode req (addSiteLocals "docs" req []) in
  get locals "site" = JStr "docs" /\
  get locals "url" = JStr "http://example.com/docs/intro?edit=false" /\
  get locals "isEditMode" = JBool true /\
  get (addEditMode (mkIncoming "GET" "http" None "/" [] []) []) "isEditMode" = JBool false.
Proof.
  cbv zeta.
  pose (req := mkIncoming "GET" "http" (Some "example.com") "/docs/intro?edit=false"
                 [("edit", JStr "false")] []).
  destruct (request_context "docs" req []) as (S & U & _).
  destruct (request_context "docs" req (addSiteLocals "docs" req []))
    as (_ & _ & _ & _ & K & E & _).
  destruct (request_context "" (mkIncoming "GET" "http" None "/" [] []) [])
    as (_ & _ & _ & _ & _ & _ & A).
  split; [|split; [|split]].
  - refine (eq_trans (K "site" _) S). discriminate.
  - refine (eq_trans (K "url" _) U). discriminate.
  - exact (E "false" eq_refl).
  - exact (A eq_refl).
Defined.

(** X21: the handler that [setLayout] registers replaces the locals by the
    route parameters: afterwards [res.locals] and [req.params] are one and
    the same object, its [layout] is the layout, and every other key reads
    as the route parameters had it; so the [site] that [addSiteLocals] had
    set is gone unless a route parameter is called site. *)
Theorem setLayout_replaces_locals (layout slug : string) (req : Incoming) (locals : Locals) :
  let after := setLayout_handler layout req (addSiteLocals slug req locals) in
  fst after = snd after /\
  get (snd after) "layout" = JStr layout /\
  (forall k, k <> "layout" -> get (snd after) k = get (in_params req) k) /\
  (lookup "site" (in_params req) = None -> get (snd after) "site" = JUndefined).
Proof.
  cbv zeta. unfold setLayout_handler. cbn [fst snd].
  split; [reflexivity|]. split; [apply get_set_same|].
  split; [intros k N; apply get_set_other; congruence|].
  intros P. rewrite get_set_other by discriminate. unfold get. now rewrite P.
Qed.

Lemma setLayout_replaces_locals_witness :
  let req := mkIncoming "GET" "http" (Some "example.com") "/users/7" [] [("id", JStr "7")] in
  let after := setLayout_handler "user-page" req (addSiteLocals "main" req []) in
  get (snd after) "id" = JStr "7" /\ get (snd after) "site" = JUndefined.
Proof.
  cbv zeta.
  destruct (setLayout_replaces_locals "user-page" "main"
              (mkIncoming "GET" "http" (Some "example.com") "/users/7" [] [("id", JStr "7")]) [])
    as (_ & _ & K & S).
  split.
  - refine (eq_trans (K "id" _) eq_refl). discriminate.
  - exact (S eq_refl).
Defined.

(** ** The router of a host *)

Section DispatchFacts.

Variable mounted : string -> Incoming -> bool.
Variable route_matches : Method -> string -> Incoming -> bool.
Variable body_parses : Incoming -> bool.
Variable site_router : string -> Incoming -> Locals -> option Locals.

Local Notation "'run'" := (dispatch mounted route_matches body_parses site_router).

Lemma dispatch_component_routes (rest : list Layer) (req : Incoming) (locals : Locals) :
  run (addComponentRoutes ++ rest) req locals =
  if body_parses req then
    match first_route route_matches req with
    | Some h => ByHandler h locals
    | None => run rest req locals
    end
  else BadBody locals.
Proof.
  unfold addComponentRoutes, first_route, addComponentRoutes. cbn.
  destruct (body_parses req); [|reflexivity].
  repeat match goal with
         | |- context [route_matches ?m ?p ?r] => destruct (route_matches m p r)
         end; reflexivity.
Qed.

Lemma dispatch_site (site : Site) (rest : list Layer) (req : Incoming) (locals : Locals) :
  run (siteLayers site ++ rest) req locals =
  let entry := if mounted (path site) req
               then addEditMode req (addSiteLocals (slug site) req locals)
               else locals in
  if body_parses req then
    match first_route route_matches req with
    | Some h => ByHandler h entry
    | None =>
        if mounted (path site) req then
          match site_router (slug site) req entry with
          | None => BySite (slug site) entry
          | Some locals' => run rest req locals'
          end
        else run rest req entry
    end
  else BadBody entry.
Proof.
  unfold siteLayers. rewrite <- !app_assoc. cbn [app dispatch].
  rewrite dispatch_component_routes. cbn [app dispatch].
  now destruct (mounted (path site) req).
Qed.

(** X22: whenever the router of a site answers a request, the locals it
    sees carry that site's own slug and the edit mode of the request,
    whatever the other sites of the host registered before it; and the site
    is one whose mount path takes the request. *)
Theorem site_router_sees_own_slug (sitesMap : list Site) (h : string)
    (req : Incoming) (slug' : string) (locals : Locals)
    (D : run (hostMiddleware sitesMap h) req [] = BySite slug' locals) :
  get locals "site" = JStr slug' /\
  get locals "isEditMode" = JBool (truthy (get (in_query req) "edit")) /\
  exists site, In site sitesMap /\ host site = h /\ slug site = slug' /\
               mounted (path site) req = true.
Proof.
  assert (forall sites l0,
            run (flat_map siteLayers sites) req l0 = BySite slug' locals ->
            get locals "site" = JStr slug' /\
            get locals "isEditMode" = JBool (truthy (get (in_query req) "edit")) /\
            exists site, In site sites /\ slug site = slug' /\ mounted (path site) req = true)
    as G.
  { induction sites as [|s sites IH]; intros l0 H; [discriminate H|].
    cbn [flat_map] in H. rewrite dispatch_site in H. cbv zeta in H.
    destruct (body_parses req); [|discriminate H].
    destruct (first_route route_matches req); [discriminate H|].
    destruct (mounted (path s) req) eqn:Mo.
    - destruct (site_router (slug s) req _) as [l'|] eqn:R.
      + destruct (IH _ H) as (A & B & site & I & C).
        split; [exact A|]. split; [exact B|]. exists site. split; [now right|exact C].
      + injection H as <- <-. unfold addEditMode, addSiteLocals.
        split; [rewrite get_set_other by discriminate; apply get_set_same|].
        split; [apply get_set_same|].
        exists s. split; [now left|now split].
    - destruct (IH _ H) as (A & B & site & I & C).
      split; [exact A|]. split; [exact B|]. exists site. split; [now right|exact C]. }
  destruct (G _ _ D) as (A & B & site & I & S & Mo).
  split; [exact A|]. split; [exact B|].
  exists site. unfold sitesOnThisHost in I.
  change by_depth with (by_key segments) in I.
  apply (Permutation_in _ (sort_permutation segments _)) in I.
  apply filter_In in I as [I Hh]. apply String.eqb_eq in Hh. now repeat split.
Qed.

(** X23: components, pages and uris have priority.  On a host with at least
    one site, a request whose body parses and that a component route takes
    goes to the first such route; no site's own router is asked, and of the
    context middleware only that of the first site of the table has run.
    A host without sites answers nothing. *)
Theorem component_routes_have_priority (sitesMap : list Site) (h : string) (req : Incoming) :
  (sitesOnThisHost sitesMap h = [] ->
   run (hostMiddleware sitesMap h) req [] = Unanswered []) /\
  (forall first others handler,
     sitesOnThisHost sitesMap h = first :: others ->
     body_parses req = true ->
     first_route route_matches req = Some handler ->
     run (hostMiddleware sitesMap h) req [] =
     ByHandler handler
       (if mounted (path first) req
        then addEditMode req (addSiteLocals (slug first) req [])
        else [])).
Proof.
  unfold hostMiddleware. split.
  - intros ->. reflexivity.
  - intros first others handler -> B F.
    cbn [flat_map]. rewrite dispatch_site. cbv zeta. now rewrite B, F.
Qed.

End DispatchFacts.

Lemma site_router_sees_own_slug_witness :
  let req := mkIncoming "GET" "http" (Some "example.com") "/docs/intro" [] [] in
  let locals :=
    addEditMode req (addSiteLocals "docs" req (addEditMode req (addSiteLocals "root" req []))) in
  dispatch example_mounted example_route_matches (fun _ => true) example_site_router
    (hostMiddleware example_sites "example.com") req [] = BySite "docs" locals /\
  get locals "site" = JStr "docs".
Proof.
  cbv zeta.
  assert (dispatch example_mounted example_route_matches (fun _ => true) example_site_router
            (hostMiddleware example_sites "example.com")
            (mkIncoming "GET" "http" (Some "example.com") "/docs/intro" [] []) [] =
          BySite "docs"
            (addEditMode (mkIncoming "GET" "http" (Some "example.com") "/docs/intro" [] [])
               (addSiteLocals "docs" (mkIncoming "GET" "http" (Some "example.com") "/docs/intro" [] [])
                  (addEditMode (mkIncoming "GET" "http" (Some "example.com") "/docs/intro" [] [])
                     (addSiteLocals "root"
                        (mkIncoming "GET" "http" (Some "example.com") "/docs/intro" [] []) [])))))
    as D by (vm_compute; reflexivity).
  split; [exact D|].
  exact (proj1 (site_router_sees_own_slug example_mounted example_route_matches (fun _ => true)
                  example_site_router example_sites "example.com" _ "docs" _ D)).
Defined.

Lemma component_routes_have_priority_witness :
  let req := mkIncoming "POST" "http" (Some "example.com") "/pages" [] [] in
  let run := dispatch example_mounted example_route_matches (fun _ => true) example_site_router in
  (sitesOnThisHost example_sites "example.com" =
     [mkSite "root" "example.com" "/"; mkSite "docs" "example.com" "/docs/"] /\
   run (hostMiddleware example_sites "example.com") req [] =
     ByHandler CreatePage (addEditMode req (addSiteLocals "root" req []))) /\
  (sitesOnThisHost example_sites "example.org" = [] /\
   run (hostMiddleware example_sites "example.org") req [] = Unanswered []).
Proof.
  cbv zeta.
  assert (sitesOnThisHost example_sites "example.com" =
          [mkSite "root" "example.com" "/"; mkSite "docs" "example.com" "/docs/"]) as T
    by (vm_compute; reflexivity).
  assert (sitesOnThisHost example_sites "example.org" = []) as E
    by (vm_compute; reflexivity).
  split; (split; [assumption|]).
  - exact (proj2 (component_routes_have_priority example_mounted example_route_matches
                    (fun _ => true) example_site_router example_sites "example.com"
                    (mkIncoming "POST" "http" (Some "example.com") "/pages" [] []))
             _ _ CreatePage T eq_refl eq_refl).
  - exact (proj1 (component_routes_have_priority example_mounted example_route_matches
                    (fun _ => true) example_site_router example_sites "example.org"
                    (mkIncoming "POST" "http" (Some "example.com") "/pages" [] [])) E).
Defined.

(** ** Failures that nobody answers *)




(** X25: a list endpoint whose [db.list] returns a promise never answers:
    whether the promise is fulfilled or rejected, nothing is sent, and what
    is left is one unhandled rejection, a TypeError, after the one call of
    [db.list] with the normalised path. *)
Theorem listAllWithPrefix_promise_unhandled (env : Collaborators) (req : Request)
    (a : option string) (p : Promise json)
    (L : db_list env (normalizePath (url req)) = ListPromise p) :
  let w := snd (listAllWithPrefix env req ResObject (init_world a)) in
  response w = None /\
  calls w = [CallList (normalizePath (url req))] /\
  exists msg, unhandled w = [TypeError msg].
Proof.
  cbv zeta. unfold listAllWithPrefix.
  unfold bind at 1. cbn -[normalizePath db_list expectJSON].
  rewrite L. unfold expectJSON, try_then_catch, ret. destruct p as [v|e].
  - unfold bind, method, throw, caught, handleError, lift, bind.
    change (classify (TypeError "Cannot read property 'json' of undefined"))
      with (Returns ServerError).
    cbn -[normalizePath]. eauto.
  - unfold caught, handleError, bind, lift.
    destruct (classify e) as [[|]|e'] eqn:C; cbn -[normalizePath].
    + unfold notFound, bind. destruct (is_Error e); cbn -[normalizePath]; eauto.
    + eauto.
    + unfold classify in C. destruct (name_is e "NotFoundError"); [discriminate|].
      destruct (err_message e) as [m|].
      * destruct (negb (indexOf m "ENOENT" =? -1)); [discriminate|].
        destruct (negb (indexOf m "not found" =? -1)); discriminate.
      * injection C as <-. eauto.
Qed.

Lemma listAllWithPrefix_promise_unhandled_witness :
  let env := example_env example_data (ListPromise (Fulfilled (JArr []))) (fun _ => Fulfilled tt) in
  let w := snd (listAllWithPrefix env (mkRequest "/uris?limit=5" "" [] JUndefined) ResObject
                  (init_world None)) in
  response w = None /\ calls w = [CallList "/uris"] /\ exists msg, unhandled w = [TypeError msg].
Proof.
  cbv zeta.
  exact (listAllWithPrefix_promise_unhandled
           (example_env example_data (ListPromise (Fulfilled (JArr []))) (fun _ => Fulfilled tt))
           (mkRequest "/uris?limit=5" "" [] JUndefined) None (Fulfilled (JArr [])) eq_refl).
Defined.

(** ** Extension dispatch, continued *)

(** X26: with the response object, and collaborators whose rejections are
    [Error]s carrying a message, every extension-dispatched request is
    answered: with status 501 exactly for the extension yaml in any case of
    the letters, and with 200, 404 or 500 otherwise. *)
Theorem routeByExtension_always_answers (env : Collaborators) (a : option string)
    (req : Request)
    (Hr : forall key options e, composer_renderComponent env key options = Rejected e ->
            is_Error e = true /\ err_message e <> None)
    (Hd : forall key e, getComponentData env key = Rejected e ->
            is_Error e = true /\ err_message e <> None) :
  exists resp,
    response (snd (routeByExtension env req ResObject (init_world a))) = Some resp /\
    (status resp = 501 <-> toLowerCase (ext req) = "yaml") /\
    (status resp = 200 \/ status resp = 404 \/ status resp = 500 \/ status resp = 501).
Proof.
  unfold routeByExtension. unfold bind at 1. unfold write_log at 1. cbn [snd fst].
  destruct (String.eqb (toLowerCase (ext req)) "html") eqn:H.
  - apply String.eqb_eq in H. unfold bind at 1. unfold set_accept at 1.
    unfold renderComponent, expectHTML.
    match goal with
    | |- context [try_then_catch ?fn ?ok ?ko ?w] =>
        destruct (envelope_answers env fn "send" SendText w) as (_ & _ & _ & resp & R & A)
    end.
    { intros e [F|F]; cbn in F; [discriminate F|]. injection F as F. exact (Hr _ _ _ F). }
    exists resp. split; [exact R|].
    assert (status resp = 200 \/ status resp = 404 \/ status resp = 500) as S.
    { unfold answer_for in A. cbn in A.
      destruct (composer_renderComponent env _ _); [subst resp; now left|tauto]. }
    split; [|tauto]. rewrite H. split; [lia|discriminate].
  - destruct (String.eqb (toLowerCase (ext req)) "yaml") eqn:Y.
    + apply String.eqb_eq in Y. eexists. split; [reflexivity|].
      split; [now split|]. cbn. tauto.
    + apply String.eqb_neq in Y. unfold bind at 1. unfold set_accept at 1.
      unfold getRouteFromComponent, expectJSON.
      match goal with
      | |- context [try_then_catch ?fn ?ok ?ko ?w] =>
          destruct (envelope_answers env fn "json" SendJSON w) as (_ & _ & _ & resp & R & A)
      end.
      { intros e [F|F]; cbn in F; [discriminate F|]. injection F as F. exact (Hd _ _ F). }
      exists resp. split; [exact R|].
      assert (status resp = 200 \/ status resp = 404 \/ status resp = 500) as S.
      { unfold answer_for in A. cbn in A.
        destruct (getComponentData env _); [subst resp; now left|tauto]. }
      split; [|tauto]. split; [lia|congruence].
Qed.

Lemma routeByExtension_always_answers_witness :
  let env := example_env example_data (ListOther "undefined") (fun _ => Fulfilled tt) in
  exists resp,
    response (snd (routeByExtension env (mkRequest "/components/missing.json" "json" [] JUndefined)
                     ResObject (init_world (Some "application/json")))) = Some resp /\
    (status resp = 200 \/ status resp = 404 \/ status resp = 500 \/ status resp = 501).
Proof.
  cbv zeta.
  destruct (routeByExtension_always_answers
              (example_env example_data (ListOther "undefined") (fun _ => Fulfilled tt))
              (Some "application/json")
              (mkRequest "/components/missing.json" "json" [] JUndefined))
    as (resp & R & _ & S).
  - intros key options e F. discriminate F.
  - intros key e F. unfold example_env, getComponentData, example_data in F.
    destruct (String.eqb key "/components/missing"); [|discriminate F].
    injection F as <-. split; [reflexivity|discriminate].
  - exists resp. split; [exact R|exact S].
Defined.
